(** * Field mapping engine of storyblok-graphql-codegen-terraform

    A shallow embedding of [src/lib/mapper.ts]: the classification of the
    fields of one GraphQL object type definition into Storyblok component
    field specifications, and the properties the specification states
    about it.

    JavaScript values are embedded as data: an object literal is an
    insertion-ordered association list, [undefined] is a value of its own,
    and a [throw] is the [Throw] outcome of the [Result] monad. *)

From Stdlib Require Import Ascii String ZArith.
From stdpp Require Import base option list strings gmap.

Local Open Scope string_scope.
Local Open Scope list_scope.
Set Warnings "-register-all".

(** ** Naming utilities (package change-case)

    The mapper imports [camelCase], [paramCase], [sentenceCase] and
    [snakeCase] from an external package.  The development is parametric
    in them; [AsciiCase] below is an instance for ASCII identifiers that
    follows the package's word splitting, used to run the mapper on
    concrete schemas. *)

Class ChangeCase := {
  camelCase : string -> string;
  paramCase : string -> string;
  sentenceCase : string -> string;
  snakeCase : string -> string;
}.

Module AsciiCase.

Definition code (c : ascii) : nat := nat_of_ascii c.

Definition is_upper (c : ascii) : bool :=
  Nat.leb 65 (code c) && Nat.leb (code c) 90.
Definition is_lower (c : ascii) : bool :=
  Nat.leb 97 (code c) && Nat.leb (code c) 122.
Definition is_digit (c : ascii) : bool :=
  Nat.leb 48 (code c) && Nat.leb (code c) 57.
Definition is_alnum (c : ascii) : bool :=
  is_upper c || is_lower c || is_digit c.

Definition lower (c : ascii) : ascii :=
  if is_upper c then ascii_of_nat (code c + 32) else c.
Definition upper (c : ascii) : ascii :=
  if is_lower c then ascii_of_nat (code c - 32) else c.

Definition flush (cur : list ascii) : list (list ascii) :=
  match cur with [] => [] | _ => [rev cur] end.

(** A word ends between a lower-case letter or digit and an upper-case
    letter, between two upper-case letters when a lower-case one
    follows, and at every run of characters that are not alphanumeric. *)
Fixpoint split (cur : list ascii) (l : list ascii) : list (list ascii) :=
  match l with
  | [] => flush cur
  | c :: rest =>
      if is_alnum c then
        let boundary :=
          match rest with
          | d :: rest' =>
              ((is_lower c || is_digit c) && is_upper d)
              || (is_upper c && is_upper d
                  && match rest' with e :: _ => is_lower e | [] => false end)
          | [] => false
          end in
        if boundary then rev (c :: cur) :: split [] rest
        else split (c :: cur) rest
      else flush cur ++ split [] rest
  end.

Definition words (s : string) : list (list ascii) :=
  split [] (list_ascii_of_string s).

Fixpoint join (delimiter : list ascii) (ws : list (list ascii)) : list ascii :=
  match ws with
  | [] => []
  | [w] => w
  | w :: ws' => w ++ delimiter ++ join delimiter ws'
  end.

Definition noCase (delimiter : string)
    (transform : nat -> list ascii -> list ascii) (s : string) : string :=
  string_of_list_ascii
    (join (list_ascii_of_string delimiter) (imap transform (words s))).

Definition lowerCase (w : list ascii) : list ascii := map lower w.

Definition upperCaseFirst (w : list ascii) : list ascii :=
  match w with [] => [] | c :: w' => upper c :: w' end.

Definition pascalCaseTransform (index : nat) (w : list ascii) : list ascii :=
  match w with
  | [] => []
  | c :: w' =>
      if negb (Nat.eqb index 0) && is_digit c
      then "_"%char :: c :: lowerCase w'
      else upper c :: lowerCase w'
  end.

Definition camelCaseTransform (index : nat) (w : list ascii) : list ascii :=
  if Nat.eqb index 0 then lowerCase w else pascalCaseTransform index w.

Definition sentenceCaseTransform (index : nat) (w : list ascii) : list ascii :=
  if Nat.eqb index 0 then upperCaseFirst (lowerCase w) else lowerCase w.

Definition camel : string -> string := noCase "" camelCaseTransform.
Definition param : string -> string := noCase "-" (fun _ => lowerCase).
Definition sentence : string -> string := noCase " " sentenceCaseTransform.
Definition snake : string -> string := noCase "_" (fun _ => lowerCase).

End AsciiCase.

#[export] Instance ascii_change_case : ChangeCase := {|
  camelCase := AsciiCase.camel;
  paramCase := AsciiCase.param;
  sentenceCase := AsciiCase.sentence;
  snakeCase := AsciiCase.snake;
|}.

(** ** JavaScript values *)

(** What the [value] member of a directive argument can hold. *)
Inductive JsPrim :=
  | JsUndefined
  | JsBool (b : bool)
  | JsStr (s : string).

#[export] Instance JsPrim_eq_dec : EqDecision JsPrim.
Proof. solve_decision. Defined.

(** A resource of the provisioning tool (package terraform-generator). *)
Record Resource := { resource_type : string; resource_name : string }.

(** Values stored in the generated objects.  [TfMap], [TfList], [TfArg] and
    [TfAttr] are what terraform-generator's [map], [list], [arg] and
    [Resource.attr] build; [NumberOf p] is the number [Number(p)]. *)
Inductive JsVal :=
  | Prim (p : JsPrim)
  | JsNum (n : Z)
  | NumberOf (p : JsPrim)
  | JsArr (l : list JsVal)
  | TfMap (o : list (string * JsVal))
  | TfList (l : list JsVal)
  | TfArg (s : string)
  | TfAttr (r : Resource) (name : string).

Coercion Prim : JsPrim >-> JsVal.

Abbreviation JsObject := (list (string * JsVal)).

Definition strings (l : list string) : JsVal := JsArr (map (fun s => Prim (JsStr s)) l).

(** Truthiness of a primitive: [undefined], [false] and the empty string
    are falsy. *)
Definition truthy (p : JsPrim) : bool :=
  match p with
  | JsUndefined => false
  | JsBool b => b
  | JsStr s => negb (String.eqb s "")
  end.

(** [`${p}`]: the string a template literal makes of a primitive. *)
Definition toString (p : JsPrim) : string :=
  match p with
  | JsUndefined => "undefined"
  | JsBool true => "true"
  | JsBool false => "false"
  | JsStr s => s
  end.

(** [p ?? d] *)
Definition nullish (p : JsPrim) (d : JsPrim) : JsPrim :=
  match p with JsUndefined => d | _ => p end.

(** [b || undefined] for a boolean [b]. *)
Definition orUndefined (b : bool) : JsVal :=
  if b then JsBool true else JsUndefined.

(** [a ?? undefined] for an optional array of strings. *)
Definition optStrings (l : option (list string)) : JsVal :=
  match l with Some l => strings l | None => JsUndefined end.

(** *** Objects

    An object keeps its keys in insertion order; writing a key that is
    already there replaces the value and keeps the place. *)
Fixpoint assign (o : JsObject) (k : string) (v : JsVal) : JsObject :=
  match o with
  | [] => [(k, v)]
  | (k', v') :: o' =>
      if String.eqb k' k then (k', v) :: o' else (k', v') :: assign o' k v
  end.

(** [Object.fromEntries]; also an object literal with spread members, whose
    entries are written left to right. *)
Definition fromEntries (entries : list (string * JsVal)) : JsObject :=
  fold_left (fun o e => assign o e.1 e.2) entries [].

(** [o[k]] *)
Fixpoint get (o : JsObject) (k : string) : JsVal :=
  match o with
  | [] => JsUndefined
  | (k', v) :: o' => if String.eqb k' k then v else get o' k
  end.

Definition keys (o : JsObject) : list string := map fst o.

(** *** Exceptions *)

Inductive Exception :=
  | Error (message : string)
  | TypeError.

Inductive Result (A : Type) :=
  | Ok (a : A)
  | Throw (e : Exception).
Arguments Ok {A} a.
Arguments Throw {A} e.

Definition bind {A B} (m : Result A) (f : A -> Result B) : Result B :=
  match m with Ok a => f a | Throw e => Throw e end.

Notation "'let*' x := m 'in' k" := (bind m (fun x => k))
  (at level 10, x name, m at level 100, k at level 200).

(** The elements of an array built by a callback that may throw: the
    callbacks run left to right and the first exception ends the run. *)
Fixpoint sequence {A} (l : list (Result A)) : Result (list A) :=
  match l with
  | [] => Ok []
  | r :: l' => let* x := r in let* xs := sequence l' in Ok (x :: xs)
  end.

(** ** The type graph (package graphql) *)

(** A type reference: a named type under list and non-null modifiers. *)
Inductive TypeNode :=
  | NamedType (name : string)
  | ListType (type : TypeNode)
  | NonNullType (type : TypeNode).

(** The literal of a directive argument. *)
Inductive ConstValueNode :=
  | IntValue (value : string)
  | FloatValue (value : string)
  | StringValue (value : string)
  | BooleanValue (value : bool)
  | NullValue
  | EnumValue (value : string)
  | ListValue (values : list ConstValueNode)
  | ObjectValue (fields : list (string * ConstValueNode)).

Record ArgumentNode := {
  argument_name : string;
  argument_value : ConstValueNode;
}.

Record DirectiveNode := {
  directive_name : string;
  directive_arguments : list ArgumentNode;
}.

Record FieldDefinitionNode := {
  field_name : string;
  field_description : option string;
  field_type : TypeNode;
  field_directives : list DirectiveNode;
}.

Record ObjectTypeDefinitionNode := {
  node_name : string;
  node_fields : option (list FieldDefinitionNode);
  node_directives : list DirectiveNode;
}.

Record EnumValueDefinitionNode := {
  enum_value_name : string;
  enum_value_description : option string;
}.

(** [values] is what the mapper reads as [astNode.values!]; the parser
    gives a list, empty when the enum declares no value. *)
Record EnumTypeDefinitionNode := {
  enum_values : list EnumValueDefinitionNode;
}.

(** [types]: the names of the member types, when the union lists any. *)
Record UnionTypeDefinitionNode := {
  union_types : option (list string);
}.

(** The named types of a schema.  A type built from a schema document
    carries its definition node; a type built in code, such as the
    introspection types every schema holds, has none, so [astNode] is
    optional.  The mapper tests it before use for an enum or a union and
    reads it as [astNode!] for an object type. *)
Inductive GraphQLNamedType :=
  | GraphQLScalarType (name : string)
  | GraphQLObjectType (name : string) (astNode : option ObjectTypeDefinitionNode)
  | GraphQLInterfaceType (name : string)
  | GraphQLUnionType (name : string) (astNode : option UnionTypeDefinitionNode)
  | GraphQLEnumType (name : string) (astNode : option EnumTypeDefinitionNode)
  | GraphQLInputObjectType (name : string).

Definition type_name (t : GraphQLNamedType) : string :=
  match t with
  | GraphQLScalarType n | GraphQLObjectType n _ | GraphQLInterfaceType n
  | GraphQLUnionType n _ | GraphQLEnumType n _ | GraphQLInputObjectType n => n
  end.

Definition isEnumType (t : GraphQLNamedType) : bool :=
  match t with GraphQLEnumType _ _ => true | _ => false end.
Definition isObjectType (t : GraphQLNamedType) : bool :=
  match t with GraphQLObjectType _ _ => true | _ => false end.
Definition isUnionType (t : GraphQLNamedType) : bool :=
  match t with GraphQLUnionType _ _ => true | _ => false end.

(** A schema, looked up by type name: [schema.getType(name)]. *)
Abbreviation GraphQLSchema := (gmap string GraphQLNamedType).

Definition getType (schema : GraphQLSchema) (name : string)
  : option GraphQLNamedType := schema !! name.

(** Integration configuration of the external catalog. *)
Record CtConfig := {
  projectKey : string;
  endpoint : string;
  clientId : string;
  clientSecret : string;
  locale : string;
}.

(** ** Helpers of [./graphql] and [./value] *)

(** [node?.value] of an argument literal: the members named [value] of the
    literal kinds that have one. *)
Definition valueOf (v : option ConstValueNode) : JsPrim :=
  match v with
  | Some (IntValue s) | Some (FloatValue s) | Some (StringValue s)
  | Some (EnumValue s) => JsStr s
  | Some (BooleanValue b) => JsBool b
  | Some NullValue | Some (ListValue _) | Some (ObjectValue _) | None =>
      JsUndefined
  end.

(** [node?.values.map(f)]: nothing when the argument is absent, the mapped
    members of a list literal, and a [TypeError] on any other literal,
    whose [values] member is [undefined]. *)
Definition valuesMap {A} (v : option ConstValueNode) (f : ConstValueNode -> A)
  : Result (option (list A)) :=
  match v with
  | None => Ok None
  | Some (ListValue vs) => Ok (Some (map f vs))
  | Some _ => Throw TypeError
  end.

Definition enumValue (v : ConstValueNode) : option string :=
  match v with EnumValue s => Some s | _ => None end.

Definition stringValue (v : ConstValueNode) : option string :=
  match v with StringValue s => Some s | _ => None end.

(** Modelled from the spec: the directive resolver of [./graphql] (section
    4.1).  The first directive of the holder with the given name is
    taken; within it the argument with the given key is looked up; the
    result is absent when either is missing. *)
Definition findDirectiveValue (directives : list DirectiveNode)
    (directiveName argKey : string) : option ConstValueNode :=
  d ← List.find (fun d => String.eqb (directive_name d) directiveName) directives;
  a ← List.find (fun a => String.eqb (argument_name a) argKey)
        (directive_arguments d);
  Some (argument_value a).

(** Modelled from the spec: [findStoryblokValue] of [./graphql], the
    resolver on the [storyblok] directive of a type definition. *)
Definition findStoryblokValue (node : ObjectTypeDefinitionNode) (name : string)
  : option ConstValueNode :=
  findDirectiveValue (node_directives node) "storyblok" name.

(** Modelled from the spec: [findStoryblokFieldValue] of [./graphql], the
    resolver on the [storyblokField] directive of a field. *)
Definition findStoryblokFieldValue (field : FieldDefinitionNode) (name : string)
  : option ConstValueNode :=
  findDirectiveValue (field_directives field) "storyblokField" name.

(** Modelled from the spec: [hasDirective] of [./graphql], whether the
    holder carries a directive of the given name. *)
Definition hasDirective (field : FieldDefinitionNode) (directiveName : string)
  : bool :=
  existsb (fun d => String.eqb (directive_name d) directiveName)
    (field_directives field).

(** Modelled from the spec: [typeName] of [./graphql], the named type a
    type reference resolves to under its modifiers. *)
Fixpoint typeName (type : TypeNode) : string :=
  match type with
  | NamedType name => name
  | ListType t | NonNullType t => typeName t
  end.

(** Modelled from the spec: [switchArray] of [./graphql] (section 4.2,
    step 1).  A reference that is a list under its non-null marker goes to
    [ifArray] with the element type, any other reference to [other]. *)
Definition switchArray {A} (type : TypeNode)
    (ifArray : TypeNode -> A) (other : TypeNode -> A) : A :=
  match type with
  | ListType subType | NonNullType (ListType subType) => ifArray subType
  | _ => other type
  end.

(** Modelled from the spec: [isValue] of [./value], whether a value is
    there, that is neither [undefined] nor [null]. *)
Definition isValue (p : JsPrim) : bool :=
  match p with JsUndefined => false | _ => true end.

(** Modelled from the spec: [.filter(isValue)] on an array whose members
    may be [undefined]. *)
Definition filterValues {A} (l : list (option A)) : list A := omap id l.

(** The members of [l] whose key is not in [seen] and not the key of an
    earlier member of [l]. *)
Fixpoint uniqueFrom {A K} `{EqDecision K} (fn : A -> K) (seen : list K)
    (l : list A) : list A :=
  match l with
  | [] => []
  | x :: l' =>
      if bool_decide (fn x ∈ seen) then uniqueFrom fn seen l'
      else x :: uniqueFrom fn (fn x :: seen) l'
  end.

(** Modelled from the spec: [.filter(uniqueBy(fn))] with [uniqueBy] of
    [./value] (section 2, uniqueness filtering): a member is kept when no
    earlier member has the same key, so first occurrences stay, in
    order. *)
Definition uniqueBy {A K} `{EqDecision K} (fn : A -> K) (l : list A) : list A :=
  uniqueFrom fn [] l.

(** Modelled from the spec: [ifValue] of [./value], the optional-value
    mapping: [fn] is applied to a value that is there. *)
Definition ifValue (value : JsPrim) (fn : JsPrim -> JsVal) : JsVal :=
  match value with JsUndefined => JsUndefined | _ => fn value end.

(** [field.type.kind === 'NonNullType'] *)
Definition isNonNullType (type : TypeNode) : bool :=
  match type with NonNullType _ => true | _ => false end.

(** [value.startsWith(prefix)] *)
Definition startsWith (value prefix : string) : bool := String.prefix prefix value.

(** [value.replace(/_/g, '-')] *)
Fixpoint replaceUnderscores (value : string) : string :=
  match value with
  | EmptyString => EmptyString
  | String c rest =>
      String (if Ascii.eqb c "_" then "-"%char else c) (replaceUnderscores rest)
  end.

(** [haystack.includes(needle)] on strings. *)
Fixpoint includes (haystack needle : string) : bool :=
  String.prefix needle haystack
  || match haystack with
     | EmptyString => false
     | String _ rest => includes rest needle
     end.

(** ** The mapper, [src/lib/mapper.ts] *)

Section Mapper.
Context `{ChangeCase}.

Definition maybeArg (value : string) (prefixes : list string) : JsVal :=
  if existsb (fun prefix => startsWith value prefix)
       ("var." :: "local." :: prefixes)
  then TfArg value
  else JsStr value.

Definition ctConnectionOptions (ctConfig : CtConfig) : list JsVal :=
  [ TfMap [("name", Prim (JsStr "endpoint"));
           ("value", maybeArg (endpoint ctConfig) [])];
    TfMap [("name", Prim (JsStr "clientId"));
           ("value", maybeArg (clientId ctConfig) [])];
    TfMap [("name", Prim (JsStr "clientSecret"));
           ("value", maybeArg (clientSecret ctConfig) [])];
    TfMap [("name", Prim (JsStr "locale"));
           ("value", maybeArg (locale ctConfig) [])] ].

Definition ctCategoryOptions (ctConfig : CtConfig) : list JsVal :=
  [ TfMap [("name", Prim (JsStr "projectKey"));
           ("value", maybeArg (projectKey ctConfig) [])];
    TfMap [("name", Prim (JsStr "clientId"));
           ("value", maybeArg (clientId ctConfig) [])];
    TfMap [("name", Prim (JsStr "clientSecret"));
           ("value", maybeArg (clientSecret ctConfig) [])] ].

(** [findStoryblokFieldValue(field, name)?.values.map(f).filter(isValue)] *)
Definition listArgument (field : FieldDefinitionNode) (name : string)
    (f : ConstValueNode -> option string) : Result (option (list string)) :=
  let* vs := valuesMap (findStoryblokFieldValue field name) f in
  Ok (filterValues <$> vs).

(** One entry of an enum's option list. *)
Definition enumOption (value : EnumValueDefinitionNode) : JsVal :=
  TfMap [("name", Prim (JsStr (default (sentenceCase (enum_value_name value))
                                 (enum_value_description value))));
         ("value", Prim (JsStr (enum_value_name value)))].

(** The constant [types] of both classifiers: [t.astNode!] of the object
    types a union lists, or of the object type itself.  A member is
    [undefined] for a type without definition node. *)
Definition memberTypes (schema : GraphQLSchema) (node : GraphQLNamedType)
  : option (list (option ObjectTypeDefinitionNode)) :=
  match node with
  | GraphQLUnionType _ (Some astNode) =>
      match union_types astNode with
      | Some ts =>
          Some (omap (fun t => match getType schema t with
                               | Some (GraphQLObjectType _ ast) => Some ast
                               | _ => None
                               end) ts)
      | None => None
      end
  | GraphQLObjectType _ astNode => Some [astNode]
  | _ => None
  end.

(** [types?.every(p)], falsy when [types] is [undefined]. *)
Definition every {A} (p : A -> bool) (l : option (list A)) : bool :=
  match l with Some l => forallb p l | None => false end.

(** Modelled from the spec: [findStoryblokValue] of [./graphql] on a
    member of [types].  On a member that is [undefined] no directive is
    found; were the resolver to fail on it instead, it would be with the
    [TypeError] that [typeNames] raises on either return path. *)
Definition memberValue (member : option ObjectTypeDefinitionNode) (name : string)
  : option ConstValueNode :=
  match member with
  | Some node => findStoryblokValue node name
  | None => None
  end.

(** [types?.map((t) => snakeCase(t.name.value))]: reading [name] of a
    member that is [undefined] is a [TypeError]. *)
Definition typeNames (types : option (list (option ObjectTypeDefinitionNode)))
  : Result JsVal :=
  match types with
  | None => Ok (Prim JsUndefined)
  | Some types =>
      let* names :=
        sequence (map (fun t => match t with
                                | Some t => Ok (snakeCase (node_name t))
                                | None => Throw TypeError
                                end) types) in
      Ok (strings names)
  end.

Definition toComponentField (field : FieldDefinitionNode) (type : TypeNode)
    (schema : GraphQLSchema) (ctConfig : option CtConfig) : Result JsObject :=
  let node := getType schema (typeName type) in
  let found : option (Result JsObject) :=
    match node with
    | None => None
    | Some (GraphQLEnumType _ (Some astNode)) =>
        Some (Ok [("type", Prim (JsStr "option"));
                  ("options", TfList (map enumOption (enum_values astNode)))])
    | Some node =>
        if String.eqb (typeName type) "StoryblokAsset" then
          Some (let* filetypes := listArgument field "filetypes" enumValue in
                Ok [("type", Prim (JsStr "asset"));
                    ("filetypes", strings (default [] filetypes))])
        else if String.eqb (typeName type) "StoryblokLink" then
          Some (let folder := valueOf (findStoryblokFieldValue field "folder") in
                let* linkFeatures := listArgument field "linkFeatures" enumValue in
                let* components := listArgument field "blokTypes"
                               (fun v => snakeCase <$> stringValue v) in
                let feature (name : string) :=
                  orUndefined (match linkFeatures with
                               | Some l => bool_decide (name ∈ l)
                               | None => false
                               end) in
                Ok [("type", Prim (JsStr "multilink"));
                    ("link_scope", Prim folder);
                    ("force_link_scope", orUndefined (truthy folder));
                    ("restrict_content_types",
                      orUndefined (match components with
                                   | Some (_ :: _) => true
                                   | _ => false
                                   end));
                    ("component_whitelist", optStrings components);
                    ("asset_link_type", feature "assets");
                    ("allow_target_blank", feature "newTab");
                    ("email_link_type", feature "email");
                    ("show_anchor", feature "anchor")])
        else if String.eqb (typeName type) "StoryblokSeo" then
          Some (Ok [("type", Prim (JsStr "custom"));
                    ("field_type", Prim (JsStr "seo-metatags"))])
        else if String.eqb (typeName type) "StoryblokTable" then
          Some (Ok [("type", Prim (JsStr "table"))])
        else if isObjectType node
                || match node with
                   | GraphQLUnionType _ (Some _) => true
                   | _ => false
                   end then
          let types := memberTypes schema node in
          (* all types must have a @storyblok(type: contentType) directive *)
          let isContentReference :=
            every (fun node =>
                     bool_decide (valueOf (memberValue node "type")
                                  = JsStr "contentType")) types in
          if isContentReference then
            Some (let* names := typeNames types in
                  Ok [("type", Prim (JsStr "option"));
                      ("source", Prim (JsStr "internal_stories"));
                      ("filter_content_type", names);
                      ("folder_slug",
                        Prim (valueOf (findStoryblokFieldValue field "folder")));
                      ("use_uuid", Prim (JsBool true))])
          else
            Some (let* names := typeNames types in
                  Ok [("type", Prim (JsStr "bloks"));
                      ("component_whitelist", names);
                      ("restrict_components", Prim (JsBool true));
                      ("minimum",
                        JsNum (if isNonNullType (field_type field) then 1 else 0));
                      ("maximum", JsNum 1)])
        else None
    end in
  match found with
  | Some result => result
  | None =>
      if String.eqb (typeName type) "String" then
        let datasource := valueOf (findStoryblokFieldValue field "datasource") in
        if truthy datasource then
          Ok [("type", Prim (JsStr "option"));
              ("datasource_slug", Prim datasource);
              ("source", Prim (JsStr "internal"));
              ("use_uuid", Prim (JsBool true))]
        else
          let ctType := valueOf (findStoryblokFieldValue field "ctType") in
          if bool_decide (ctType = JsStr "category") then
            match ctConfig with
            | None =>
                Throw (Error ("Commercetools config is required for "
                              +:+ field_name field))
            | Some ctConfig =>
                Ok [("type", Prim (JsStr "custom"));
                    ("field_type", Prim (JsStr "ct-category"));
                    ("options", TfList (ctCategoryOptions ctConfig))]
            end
          else
            let stringType := valueOf (findStoryblokFieldValue field "format") in
            let rtl := valueOf (findStoryblokFieldValue field "rtl") in
            let max_length :=
              ifValue (valueOf (findStoryblokFieldValue field "max")) NumberOf in
            if bool_decide (stringType = JsStr "richtext") then
              let* components := listArgument field "blokTypes"
                             (fun v => snakeCase <$> stringValue v) in
              let components := uniqueBy id <$> components in
              let* toolbar := valuesMap (findStoryblokFieldValue field "toolbar")
                          (fun v => paramCase <$> enumValue v) in
              let toolbar :=
                (fun entries =>
                   uniqueBy id
                     (filterValues
                        (entries ++ [match components with
                                     | Some (_ :: _) => Some "blok"
                                     | _ => None
                                     end]))) <$> toolbar in
              let* linkFeatures := valuesMap
                               (findStoryblokFieldValue field "linkFeatures") id in
              Ok [("type", Prim (JsStr "richtext"));
                  ("rtl", Prim rtl);
                  ("max_length", max_length);
                  ("customize_toolbar", orUndefined (bool_decide (is_Some toolbar)));
                  ("toolbar", optStrings toolbar);
                  ("allow_target_blank",
                    orUndefined
                      (match linkFeatures with
                       | Some vs =>
                           existsb (fun v => match v with
                                            | EnumValue value => String.eqb value "newTab"
                                            | _ => false
                                            end) vs
                       | None => false
                       end));
                  ("restrict_components",
                    orUndefined (bool_decide (is_Some components)));
                  ("component_whitelist", optStrings components)]
            else if bool_decide (stringType = JsStr "markdown") then
              let* toolbar := listArgument field "toolbar"
                          (fun v => paramCase <$> enumValue v) in
              Ok [("type", Prim (JsStr "markdown"));
                  ("rtl", Prim rtl);
                  ("max_length", max_length);
                  ("rich_markdown", Prim (JsBool true));
                  ("customize_toolbar", orUndefined (bool_decide (is_Some toolbar)));
                  ("toolbar", optStrings toolbar)]
            else if bool_decide (stringType = JsStr "textarea") then
              Ok [("type", Prim (JsStr "textarea"));
                  ("rtl", Prim rtl);
                  ("max_length", max_length)]
            else
              Ok [("type", Prim (JsStr "text"));
                  ("rtl", Prim rtl);
                  ("max_length", max_length);
                  ("regex", Prim (valueOf (findStoryblokFieldValue field "regex")))]
      else if String.eqb (typeName type) "Boolean" then
        Ok [("type", Prim (JsStr "boolean"))]
      else if String.eqb (typeName type) "Int"
              || String.eqb (typeName type) "Float" then
        Ok [("type", Prim (JsStr "number"));
            ("decimals_value",
              ifValue (valueOf (findStoryblokFieldValue field "decimals")) NumberOf);
            ("steps_value",
              ifValue (valueOf (findStoryblokFieldValue field "steps")) NumberOf);
            ("min_value",
              ifValue (valueOf (findStoryblokFieldValue field "min")) NumberOf);
            ("max_value",
              ifValue (valueOf (findStoryblokFieldValue field "max")) NumberOf)]
      else if String.eqb (typeName type) "Date" then
        Ok [("type", Prim (JsStr "datetime"));
            ("disable_time", Prim (JsBool true))]
      else if String.eqb (typeName type) "DateTime" then
        Ok [("type", Prim (JsStr "datetime"))]
      else if String.eqb (typeName type) "CtTypeId" then
        match ctConfig with
        | None =>
            Throw (Error ("Commercetools config is required for type "
                          +:+ typeName type))
        | Some ctConfig =>
            let ctType := valueOf (findStoryblokFieldValue field "ctType") in
            Ok [("type", Prim (JsStr "custom"));
                ("field_type", Prim (JsStr "sb-commercetools"));
                ("options",
                  TfList (filterValues
                            ((Some <$> ctConnectionOptions ctConfig)
                             ++ [Some (TfMap [("name", Prim (JsStr "limit"));
                                              ("value", Prim (JsStr "1"))]);
                                 if truthy ctType
                                 then Some (TfMap [("name", Prim (JsStr "selectOnly"));
                                                   ("value", Prim ctType)])
                                 else None])))]
        end
      else Throw (Error ("Unsupported type " +:+ typeName type))
  end.

Definition toArrayComponentField (field : FieldDefinitionNode) (type : TypeNode)
    (schema : GraphQLSchema) (ctConfig : option CtConfig) : Result JsObject :=
  let node := getType schema (typeName type) in
  let minimum := ifValue (valueOf (findStoryblokFieldValue field "min")) NumberOf in
  let maximum := ifValue (valueOf (findStoryblokFieldValue field "max")) NumberOf in
  if match node with
     | Some node => String.eqb (type_name node) "StoryblokAsset"
     | None => false
     end then
    let* filetypes := listArgument field "filetypes" enumValue in
    Ok [("type", Prim (JsStr "multiasset"));
        ("filetypes", strings (default [] filetypes))]
  else
    match node with
    | Some (GraphQLObjectType _ _ as node) | Some (GraphQLUnionType _ _ as node) =>
        let types := memberTypes schema node in
        (* all types must have a @storyblok(type: contentType) directive *)
        let isContentReference :=
          every (fun node =>
                   let type :=
                     nullish (valueOf (memberValue node "type")) (JsStr "") in
                   bool_decide (type = JsStr "contentType")
                   || bool_decide (type = JsStr "universal")) types in
        if isContentReference then
          let* names := typeNames types in
          Ok [("type", Prim (JsStr "options"));
              ("source", Prim (JsStr "internal_stories"));
              ("filter_content_type", names);
              ("use_uuid", Prim (JsBool true));
              ("folder_slug",
                Prim (valueOf (findStoryblokFieldValue field "folder")))]
        else
          let* names := typeNames types in
          Ok [("type", Prim (JsStr "bloks"));
              ("component_whitelist", names);
              ("restrict_components", Prim (JsBool true));
              ("minimum", minimum);
              ("maximum", maximum)]
    | Some (GraphQLEnumType _ (Some astNode)) =>
        Ok [("type", Prim (JsStr "options"));
            ("options", TfList (map enumOption (enum_values astNode)));
            ("minimum", minimum);
            ("maximum", maximum)]
    | _ =>
        if String.eqb (typeName type) "String" then
          let datasource := valueOf (findStoryblokFieldValue field "datasource") in
          if negb (truthy datasource) then
            Throw (Error ("Datasource is required for type " +:+ typeName type))
          else
            Ok [("type", Prim (JsStr "options"));
                ("datasource_slug", Prim datasource);
                ("source", Prim (JsStr "internal"));
                ("use_uuid", Prim (JsBool true))]
        else if String.eqb (typeName type) "CtTypeId" then
          match ctConfig with
          | None =>
              Throw (Error ("Commercetools config is required for type "
                            +:+ typeName type))
          | Some ctConfig =>
              (* findStoryblokFieldValue(field, 'max')?.value.toString() *)
              let* max :=
                match findStoryblokFieldValue field "max" with
                | None => Ok JsUndefined
                | Some v =>
                    match valueOf (Some v) with
                    | JsUndefined => Throw TypeError
                    | value => Ok (JsStr (toString value))
                    end
                end in
              let ctType := valueOf (findStoryblokFieldValue field "ctType") in
              Ok [("type", Prim (JsStr "custom"));
                  ("field_type", Prim (JsStr "sb-commercetools"));
                  ("options",
                    TfList (filterValues
                              ((Some <$> ctConnectionOptions ctConfig)
                               ++ [if truthy max
                                   then Some (TfMap [("name", Prim (JsStr "limit"));
                                                     ("value", Prim max)])
                                   else None;
                                   if truthy ctType
                                   then Some (TfMap [("name", Prim (JsStr "selectOnly"));
                                                     ("value", Prim ctType)])
                                   else None])))]
          end
        else Throw (Error ("Unsupported array type " +:+ typeName type))
    end.

Definition getUniqueDirectiveProps (node : ObjectTypeDefinitionNode)
    (directiveProp : string) : option (list JsPrim) :=
  (fun fields =>
     List.filter isValue
       (uniqueBy id
          (map (fun field => valueOf (findStoryblokFieldValue field directiveProp))
             fields))) <$> node_fields node.

(** [camelCase(`section ${name}`)] *)
Definition sectionKey (name : JsPrim) : string :=
  camelCase ("section " +:+ toString name).

Definition toFieldGroupComponentField (node : ObjectTypeDefinitionNode)
    (directiveProp : string) (name : JsPrim) : JsObject :=
  [("type", Prim (JsStr directiveProp));
   ("display_name", Prim name);
   ("keys",
     strings
       ((* get all tab or section field names *)
        default []
          ((fun fields =>
              map field_name
                (List.filter
                   (fun field =>
                      bool_decide
                        (valueOf (findStoryblokFieldValue field directiveProp) = name))
                   fields)) <$> node_fields node)
        (* special case for sections in tabs: add section field names for
           this tab *)
        ++ (if String.eqb directiveProp "tab" then
              uniqueBy id
                (map sectionKey
                   (map (fun field => valueOf (findStoryblokFieldValue field "section"))
                      (List.filter
                         (fun field =>
                            bool_decide
                              (valueOf (findStoryblokFieldValue field "tab") = name)
                            && bool_decide
                                 (is_Some (findStoryblokFieldValue field "section")))
                         (default [] (node_fields node)))))
            else [])))].

(** [node.fields?.length ?? 0] *)
Definition fieldsLength (node : ObjectTypeDefinitionNode) : nat :=
  default 0 (length <$> node_fields node).

(** The entries of the ordinary fields: the first spread of [toSchema]. *)
Definition normalFields (node : ObjectTypeDefinitionNode)
    (schema : GraphQLSchema) (ctConfig : option CtConfig)
  : Result (list (string * JsVal)) :=
  match node_fields node with
  | None => Ok []
  | Some fields =>
      sequence
        (imap
           (fun position field =>
              let* componentField :=
                switchArray (field_type field)
                  (fun subType => toArrayComponentField field subType schema ctConfig)
                  (fun type => toComponentField field type schema ctConfig) in
              Ok (field_name field,
                  TfMap
                    (fromEntries
                       ([("position", JsNum (Z.of_nat position));
                         ("translatable",
                           Prim (valueOf (findStoryblokFieldValue field "translatable")));
                         ("default_value",
                           Prim (valueOf (findStoryblokFieldValue field "default")));
                         ("no_translate",
                           Prim (valueOf
                                   (findStoryblokFieldValue field "excludeFromExport")));
                         ("display_name",
                           Prim (nullish
                                   (valueOf (findStoryblokFieldValue field "displayName"))
                                   (JsStr (sentenceCase (field_name field)))));
                         ("required", Prim (JsBool (isNonNullType (field_type field))));
                         ("description",
                           Prim (from_option JsStr JsUndefined
                                   (field_description field)))]
                        ++ componentField))))
           (List.filter (fun field => hasDirective field "storyblokField") fields))
  end.

(** The entries of the section groups: the second spread of [toSchema]. *)
Definition sectionFields (node : ObjectTypeDefinitionNode)
  : list (string * JsVal) :=
  default []
    (imap
       (fun position name =>
          (sectionKey name,
           TfMap
             (fromEntries
                (("position", JsNum (Z.of_nat (position + fieldsLength node)))
                 :: toFieldGroupComponentField node "section" name))))
       <$> getUniqueDirectiveProps node "section").

(** The entries of the tab groups: the third spread of [toSchema]. *)
Definition tabFields (node : ObjectTypeDefinitionNode)
  : list (string * JsVal) :=
  default []
    (imap
       (fun position name =>
          (camelCase ("tab " +:+ toString name),
           TfMap
             (fromEntries
                (("position",
                   JsNum (Z.of_nat
                            (position
                             + default 0 (length <$> getUniqueDirectiveProps node "section")
                             + fieldsLength node)))
                 :: toFieldGroupComponentField node "tab" name))))
       <$> getUniqueDirectiveProps node "tab").

Definition toSchema (node : ObjectTypeDefinitionNode) (schema : GraphQLSchema)
    (ctConfig : option CtConfig) : Result JsObject :=
  let* normal := normalFields node schema ctConfig in
  Ok (fromEntries (normal ++ sectionFields node ++ tabFields node)).

Definition toIconValue (value : string) : string :=
  if String.eqb value "block_at" then "block-@" else replaceUnderscores value.

Definition previewField (node : ObjectTypeDefinitionNode) : JsObject :=
  let value := valueOf (findStoryblokValue node "preview") in
  if negb (truthy value) then []
  else if existsb (fun f => bool_decide (JsStr (field_name f) = value))
            (default [] (node_fields node))
  then [("preview_field", Prim (JsStr (snakeCase (toString value))))]
  else [("preview_tmpl", Prim value)].

Definition toComponent (node : ObjectTypeDefinitionNode) (spaceId : Z)
    (componentGroup : option Resource) (schema : GraphQLSchema)
    (ctConfig : option CtConfig) : Result JsObject :=
  let type := valueOf (findStoryblokValue node "type") in
  (* ifValue(..., toIconValue): a value that is no string has no
     [replace] method *)
  let* icon :=
    match valueOf (findStoryblokValue node "icon") with
    | JsUndefined => Ok (Prim JsUndefined)
    | JsStr value => Ok (Prim (JsStr (toIconValue value)))
    | JsBool _ => Throw TypeError
    end in
  let* fields := toSchema node schema ctConfig in
  Ok (fromEntries
        ([("name", Prim (JsStr (snakeCase (node_name node))));
          ("space_id", JsNum spaceId);
          ("is_root",
            Prim (JsBool (bool_decide (nullish type (JsStr "") = JsStr "contentType")
                          || bool_decide (nullish type (JsStr "") = JsStr "universal"))));
          ("is_nestable",
            Prim (JsBool (negb (bool_decide (type = JsStr "contentType")))));
          ("icon", icon);
          ("color", Prim (valueOf (findStoryblokValue node "color")));
          ("image", Prim (valueOf (findStoryblokValue node "image")));
          ("display_name", Prim (valueOf (findStoryblokValue node "displayName")));
          ("component_group_uuid",
            from_option (fun r => TfAttr r "uuid") (Prim JsUndefined) componentGroup);
          ("schema", TfMap fields)]
         ++ previewField node)).

End Mapper.

(** ** Sample schemas

    Type definitions as the schema language writes them, for running the
    mapper. *)

Definition directive (name : string) (arguments : list (string * ConstValueNode))
  : DirectiveNode :=
  {| directive_name := name;
     directive_arguments :=
       map (fun a => {| argument_name := a.1; argument_value := a.2 |}) arguments |}.

(** [@storyblokField(...)] *)
Definition storyblokField := directive "storyblokField".

(** [@storyblok(...)] *)
Definition storyblok := directive "storyblok".

Definition fieldOf (name : string) (type : TypeNode)
    (directives : list DirectiveNode) : FieldDefinitionNode :=
  {| field_name := name;
     field_description := None;
     field_type := type;
     field_directives := directives |}.

Definition objectOf (name : string) (fields : list FieldDefinitionNode)
    (directives : list DirectiveNode) : ObjectTypeDefinitionNode :=
  {| node_name := name; node_fields := Some fields; node_directives := directives |}.

(** [type Landing @storyblok(type: universal) { title: String @storyblokField }] *)
Definition Landing : ObjectTypeDefinitionNode :=
  objectOf "Landing" [fieldOf "title" (NamedType "String") [storyblokField []]]
    [storyblok [("type", EnumValue "universal")]].

(** [type Article @storyblok(type: universal) { title: String @storyblokField }] *)
Definition Article : ObjectTypeDefinitionNode :=
  objectOf "Article" [fieldOf "title" (NamedType "String") [storyblokField []]]
    [storyblok [("type", EnumValue "universal")]].

(** [type Author @storyblok(type: contentType) { name: String @storyblokField }] *)
Definition Author : ObjectTypeDefinitionNode :=
  objectOf "Author" [fieldOf "name" (NamedType "String") [storyblokField []]]
    [storyblok [("type", EnumValue "contentType")]].

(** The built-in scalars, [scalar CtTypeId], the object types,
    [union Page = Landing | Article] and [union Person = Author]. *)
Definition sampleSchema : GraphQLSchema :=
  list_to_map
    [("String", GraphQLScalarType "String");
     ("Int", GraphQLScalarType "Int");
     ("Boolean", GraphQLScalarType "Boolean");
     ("CtTypeId", GraphQLScalarType "CtTypeId");
     ("Landing", GraphQLObjectType "Landing" (Some Landing));
     ("Article", GraphQLObjectType "Article" (Some Article));
     ("Author", GraphQLObjectType "Author" (Some Author));
     ("Page", GraphQLUnionType "Page"
                (Some {| union_types := Some ["Landing"; "Article"] |}));
     ("Person", GraphQLUnionType "Person"
                  (Some {| union_types := Some ["Author"] |}))].

(** [page: Page @storyblokField] *)
Definition pageField : FieldDefinitionNode :=
  fieldOf "page" (NamedType "Page") [storyblokField []].

(** [pages: [Page] @storyblokField] *)
Definition pagesField : FieldDefinitionNode :=
  fieldOf "pages" (ListType (NamedType "Page")) [storyblokField []].

(** [type Teaser { internalNote: String
                   summary: String! @storyblokField(section: "Seo") }] *)
Definition Teaser : ObjectTypeDefinitionNode :=
  objectOf "Teaser"
    [fieldOf "internalNote" (NamedType "String") [];
     fieldOf "summary" (NonNullType (NamedType "String"))
       [storyblokField [("section", StringValue "Seo")]]]
    [].

(** [type Profile { title: String @storyblokField(tab: "Info")
                    body: String @storyblokField(tab: "Info", section: "Basics") }] *)
Definition Profile : ObjectTypeDefinitionNode :=
  objectOf "Profile"
    [fieldOf "title" (NamedType "String")
       [storyblokField [("tab", StringValue "Info")]];
     fieldOf "body" (NamedType "String")
       [storyblokField [("tab", StringValue "Info");
                        ("section", StringValue "Basics")]]]
    [].

(** [tags: [String] @storyblokField(datasource: "colors")] *)
Definition tagsField : FieldDefinitionNode :=
  fieldOf "tags" (ListType (NamedType "String"))
    [storyblokField [("datasource", StringValue "colors")]].

(** [counts: [Int] @storyblokField] *)
Definition countsField : FieldDefinitionNode :=
  fieldOf "counts" (ListType (NamedType "Int")) [storyblokField []].

(** [sku: CtTypeId @storyblokField] *)
Definition skuField : FieldDefinitionNode :=
  fieldOf "sku" (NamedType "CtTypeId") [storyblokField []].

(** [body: String @storyblokField(format: richtext, blokTypes: ["HeroBanner"])] *)
Definition bodyField : FieldDefinitionNode :=
  fieldOf "body" (NamedType "String")
    [storyblokField [("format", EnumValue "richtext");
                     ("blokTypes", ListValue [StringValue "HeroBanner"])]].

(** [body] with [toolbar: [blok, bold]] *)
Definition bodyBlokFirstField : FieldDefinitionNode :=
  fieldOf "body" (NamedType "String")
    [storyblokField [("format", EnumValue "richtext");
                     ("blokTypes", ListValue [StringValue "HeroBanner"]);
                     ("toolbar", ListValue [EnumValue "blok"; EnumValue "bold"])]].

(** [body] with [toolbar: [bold, pasteAction]] *)
Definition bodyToolbarField : FieldDefinitionNode :=
  fieldOf "body" (NamedType "String")
    [storyblokField [("format", EnumValue "richtext");
                     ("blokTypes", ListValue [StringValue "HeroBanner"]);
                     ("toolbar", ListValue [EnumValue "bold"; EnumValue "pasteAction"])]].

(** [enum Color { RED  "Sky blue" BLUE }] *)
Definition Color : EnumTypeDefinitionNode :=
  {| enum_values :=
       [{| enum_value_name := "RED"; enum_value_description := None |};
        {| enum_value_name := "BLUE"; enum_value_description := Some "Sky blue" |}] |}.

(** The sample schema with [enum Color] and [scalar StoryblokLink]. *)
Definition linkSchema : GraphQLSchema :=
  <["Color" := GraphQLEnumType "Color" (Some Color)]>
    (<["StoryblokLink" := GraphQLScalarType "StoryblokLink"]> sampleSchema).

(** [color: Color @storyblokField] *)
Definition colorField : FieldDefinitionNode :=
  fieldOf "color" (NamedType "Color") [storyblokField []].

(** [link: StoryblokLink @storyblokField(folder: "pages/",
      blokTypes: ["Landing"], linkFeatures: [newTab])] *)
Definition linkField : FieldDefinitionNode :=
  fieldOf "link" (NamedType "StoryblokLink")
    [storyblokField [("folder", StringValue "pages/");
                     ("blokTypes", ListValue [StringValue "Landing"]);
                     ("linkFeatures", ListValue [EnumValue "newTab"])]].

(** [swatch: String @storyblokField(datasource: "colors", format: richtext)] *)
Definition swatchField : FieldDefinitionNode :=
  fieldOf "swatch" (NamedType "String")
    [storyblokField [("datasource", StringValue "colors");
                     ("format", EnumValue "richtext")]].

(** [category: String @storyblokField(ctType: category)] *)
Definition categoryField : FieldDefinitionNode :=
  fieldOf "category" (NamedType "String")
    [storyblokField [("ctType", EnumValue "category")]].

(** [title: String @storyblokField] *)
Definition titleField : FieldDefinitionNode :=
  fieldOf "title" (NamedType "String") [storyblokField []].

(** [notes: String @storyblokField(format: textarea, max: 200)] *)
Definition notesField : FieldDefinitionNode :=
  fieldOf "notes" (NamedType "String")
    [storyblokField [("format", EnumValue "textarea"); ("max", IntValue "200")]].

(** [price: Money @storyblokField], with no type [Money] in the schema. *)
Definition priceField : FieldDefinitionNode :=
  fieldOf "price" (NamedType "Money") [storyblokField []].

(** [type Invoice { title: String @storyblokField
                    price: Money @storyblokField
                    sku: CtTypeId @storyblokField }] *)
Definition Invoice : ObjectTypeDefinitionNode :=
  objectOf "Invoice" [titleField; priceField; skuField] [].

(** [type Post @storyblok(type: contentType, preview: "title", icon: block_at)
      { title: String @storyblokField }] *)
Definition Post : ObjectTypeDefinitionNode :=
  objectOf "Post" [titleField]
    [storyblok [("type", EnumValue "contentType");
                ("preview", StringValue "title");
                ("icon", EnumValue "block_at")]].

(** [type Flagged @storyblok(icon: true) { title: String @storyblokField }] *)
Definition Flagged : ObjectTypeDefinitionNode :=
  objectOf "Flagged" [titleField] [storyblok [("icon", BooleanValue true)]].

(** [body] with [toolbar: [bold, blok]] *)
Definition bodyBlokLastField : FieldDefinitionNode :=
  fieldOf "body" (NamedType "String")
    [storyblokField [("format", EnumValue "richtext");
                     ("blokTypes", ListValue [StringValue "HeroBanner"]);
                     ("toolbar", ListValue [EnumValue "bold"; EnumValue "blok"])]].

(** The sample schema with the introspection type [__Type], an object
    type without definition node. *)
Definition introspectionSchema : GraphQLSchema :=
  <["__Type" := GraphQLObjectType "__Type" None]> sampleSchema.

(** [meta: __Type @storyblokField] *)
Definition metaField : FieldDefinitionNode :=
  fieldOf "meta" (NamedType "__Type") [storyblokField []].

(** [metas: [__Type] @storyblokField] *)
Definition metasField : FieldDefinitionNode :=
  fieldOf "metas" (ListType (NamedType "__Type")) [storyblokField []].

(** ** Vocabulary of the statements *)

(** A configured string is a reference when it starts with [var.] or
    with [local.]. *)
Definition referencePrefix (value : string) : Prop :=
  (exists rest, value = "var." +:+ rest) \/ (exists rest, value = "local." +:+ rest).

(** The values the connection builder reads from the configuration,
    in the order of its options. *)
Definition connectionValues (ctConfig : CtConfig) : list string :=
  [endpoint ctConfig; clientId ctConfig; clientSecret ctConfig; locale ctConfig].

Definition categoryValues (ctConfig : CtConfig) : list string :=
  [projectKey ctConfig; clientId ctConfig; clientSecret ctConfig].

(** The [value] attribute of one option of a builder. *)
Definition optionValue (option : JsVal) : JsVal :=
  match option with TfMap o => get o "value" | _ => JsUndefined end.

(** The attribute names the two classifiers write. *)
Definition componentFieldKeys : list string :=
  ["type"; "options"; "filetypes"; "link_scope"; "force_link_scope";
   "restrict_content_types"; "component_whitelist"; "asset_link_type";
   "allow_target_blank"; "email_link_type"; "show_anchor"; "field_type";
   "source"; "filter_content_type"; "folder_slug"; "use_uuid";
   "restrict_components"; "minimum"; "maximum"; "datasource_slug"; "rtl";
   "max_length"; "customize_toolbar"; "toolbar"; "rich_markdown"; "regex";
   "decimals_value"; "steps_value"; "min_value"; "max_value"; "disable_time"].

Definition componentKeys (o : JsObject) : bool :=
  forallb (fun k => existsb (String.eqb k) componentFieldKeys) (keys o).

(** The fields of a type definition that carry the [storyblokField]
    directive, in declaration order. *)
Definition storyblokFields (node : ObjectTypeDefinitionNode)
  : list FieldDefinitionNode :=
  List.filter (fun field => hasDirective field "storyblokField")
    (default [] (node_fields node)).

(** A type definition with another field list. *)
Definition withFields (node : ObjectTypeDefinitionNode)
    (fields : option (list FieldDefinitionNode)) : ObjectTypeDefinitionNode :=
  {| node_name := node_name node;
     node_fields := fields;
     node_directives := node_directives node |}.

(** What an ordinary entry says of its field: the key is the field's
    name, and [required] is [true] exactly for a [NonNullType]. *)
Definition requiredAsDeclared (field : FieldDefinitionNode)
    (entry : string * JsVal) : Prop :=
  entry.1 = field_name field
  /\ exists (spec : JsObject) (required : bool),
      entry.2 = TfMap spec
      /\ get spec "required" = JsBool required
      /\ (required = true <-> exists type, field_type field = NonNullType type).

(** The [position] attributes of the entries of a schema mapping, in the
    order of the mapping. *)
Definition positions (fields : JsObject) : list JsVal :=
  map (fun entry => match entry.2 with
                    | TfMap spec => get spec "position"
                    | _ => Prim JsUndefined
                    end) fields.

(** The number of a position. *)
Definition positionOf (i : nat) : JsVal := JsNum (Z.of_nat i).

(** The type is an object type, or a union type with a definition node. *)
Definition objectOrUnion (node : GraphQLNamedType) : Prop :=
  match node with
  | GraphQLObjectType _ _ | GraphQLUnionType _ (Some _) => True
  | _ => False
  end.

(** The type a name resolves to is no enum, object or union type: the
    name is absent from the schema, or a scalar, interface or input
    object type. *)
Definition notEnumObjectUnion (node : option GraphQLNamedType) : Prop :=
  match node with
  | Some node => isEnumType node || isObjectType node || isUnionType node = false
  | None => True
  end.

(** The definition nodes of the members of [types], when every member
    has one. *)
Fixpoint allDefined {A} (members : list (option A)) : option (list A) :=
  match members with
  | [] => Some []
  | Some member :: members => cons member <$> allDefined members
  | None :: _ => None
  end.

Definition definitionNodes (types : option (list (option ObjectTypeDefinitionNode)))
  : option (option (list ObjectTypeDefinitionNode)) :=
  match types with
  | None => Some None
  | Some members => Some <$> allDefined members
  end.

(** The schema files a type under the type's own name. *)
Definition keyedByName (schema : GraphQLSchema) (name : string) : Prop :=
  match getType schema name with
  | Some node => type_name node = name
  | None => True
  end.

(** A directive argument that is absent or a list literal. *)
Definition listOrAbsent (v : option ConstValueNode) : Prop :=
  match v with None | Some (ListValue _) => True | Some _ => False end.

(** The kinds the list classifier is declared to return. *)
Definition arrayKinds : list string := ["options"; "multiasset"; "bloks"; "custom"].

(** The kinds the singular classifier returns. *)
Definition singularKinds : list string :=
  ["asset"; "bloks"; "boolean"; "custom"; "datetime"; "markdown"; "multilink";
   "number"; "option"; "richtext"; "table"; "textarea"; "text"].

(** The [type] attribute of [o] is one of [kinds]. *)
Definition kindIn (kinds : list string) (o : JsObject) : bool :=
  match get o "type" with
  | Prim (JsStr kind) => existsb (String.eqb kind) kinds
  | _ => false
  end.

(** The scalar names of the second switch of the singular classifier. *)
Definition scalarNames : list string :=
  ["String"; "Boolean"; "Int"; "Float"; "Date"; "DateTime"; "CtTypeId"].

(** The sentinel names of the first switch of the singular classifier. *)
Definition sentinelNames : list string :=
  ["StoryblokAsset"; "StoryblokLink"; "StoryblokSeo"; "StoryblokTable"].

(** The attributes [toComponent] writes before the preview selector. *)
Definition componentAttributes : list string :=
  ["name"; "space_id"; "is_root"; "is_nestable"; "icon"; "color"; "image";
   "display_name"; "component_group_uuid"; "schema"].

(** The value names a declared field of the type definition. *)
Definition namesField (node : ObjectTypeDefinitionNode) (value : JsPrim) : Prop :=
  exists field, field ∈ default [] (node_fields node)
                /\ JsStr (field_name field) = value.

(** The strings of an array of strings; nothing for another value. *)
Definition stringsOf (v : JsVal) : list string :=
  match v with
  | JsArr l => omap (fun x => match x with Prim (JsStr s) => Some s | _ => None end) l
  | _ => []
  end.


(** The value a field gives a grouping argument. *)
Definition groupOf (directiveProp : string) (field : FieldDefinitionNode) : JsPrim :=
  valueOf (findStoryblokFieldValue field directiveProp).


(** The flags of a [multilink] spec that are [true] or absent. *)
Definition linkFlags : list string :=
  ["force_link_scope"; "restrict_content_types"; "asset_link_type";
   "allow_target_blank"; "email_link_type"; "show_anchor"].

Section MapperVocabulary.
Context `{ChangeCase}.

(** The snake-cased names of the definition nodes of [types]. *)
Definition memberNames (types : option (list ObjectTypeDefinitionNode)) : JsVal :=
  optStrings (map (fun t => snakeCase (node_name t)) <$> types).

Definition classifyField (field : FieldDefinitionNode) (schema : GraphQLSchema)
    (ctConfig : option CtConfig) : Result JsObject :=
  switchArray (field_type field)
    (fun subType => toArrayComponentField field subType schema ctConfig)
    (fun type => toComponentField field type schema ctConfig).

(** The member keys of a group, read from its [keys] attribute. *)
Definition memberKeys (node : ObjectTypeDefinitionNode) (directiveProp : string)
    (name : JsPrim) : list string :=
  stringsOf (get (toFieldGroupComponentField node directiveProp name) "keys").


(** [camelCase(`tab ${name}`)] *)
Definition tabKey (name : JsPrim) : string := camelCase ("tab " +:+ toString name).

(** The entries a [toolbar] list names: the param-cased names of its
    enum members, in order. *)
Definition configuredEntries (toolbar : list ConstValueNode) : list string :=
  filterValues (map (fun v => paramCase <$> enumValue v) toolbar).

End MapperVocabulary.

(** ** Properties *)

(** *** Strings and objects *)

Lemma startsWith_iff (value prefix : string) :
  startsWith value prefix = true <-> exists rest, value = prefix +:+ rest.
Proof.
  unfold startsWith. revert value.
  induction prefix as [|a prefix IH]; intros value; simpl.
  - destruct value; split; eauto.
  - destruct value as [|b value]; simpl.
    + split; [discriminate | intros [rest Hrest]; discriminate].
    + destruct (ascii_dec a b) as [->|Hab].
      * rewrite IH. split; intros [rest Hrest]; exists rest.
        -- by rewrite Hrest.
        -- by injection Hrest.
      * split; [discriminate | intros [rest Hrest]; injection Hrest; congruence].
Qed.

Lemma get_app (a b : JsObject) (k : string) :
  get (a ++ b) k = if bool_decide (k ∈ keys a) then get a k else get b k.
Proof.
  induction a as [|[k' v] a IH]; simpl; [done|].
  destruct (String.eqb_spec k' k) as [->|Hne].
  - rewrite bool_decide_eq_true_2; [done | apply list_elem_of_here].
  - rewrite IH. apply (f_equal (fun b : bool => if b then _ else _)).
    apply bool_decide_ext. unfold keys. simpl.
    rewrite elem_of_cons.
    split; [by right | intros [Heq|Hin]; [congruence | done]].
Qed.

Lemma get_assign (o : JsObject) (k k' : string) (v : JsVal) :
  get (assign o k v) k' = if String.eqb k k' then v else get o k'.
Proof.
  induction o as [|[k0 v0] o IH]; simpl; [done|].
  destruct (String.eqb_spec k0 k) as [->|Hne]; simpl.
  - destruct (String.eqb_spec k k'); done.
  - rewrite IH. destruct (String.eqb_spec k0 k') as [->|]; [|done].
    destruct (String.eqb_spec k k'); congruence.
Qed.

Lemma get_fold_assign (entries : list (string * JsVal)) (o : JsObject) (k : string) :
  get (fold_left (fun o e => assign o e.1 e.2) entries o) k = get (rev entries ++ o) k.
Proof.
  revert o. induction entries as [|[k0 v0] entries IH]; intros o; simpl; [done|].
  rewrite IH, <- app_assoc. simpl.
  rewrite !get_app. case_bool_decide; [done|].
  simpl. apply get_assign.
Qed.

(** Reading a key of an object built from entries finds the last entry
    written under the key. *)
Lemma get_fromEntries (entries : list (string * JsVal)) (k : string) :
  get (fromEntries entries) k = get (rev entries) k.
Proof. unfold fromEntries. rewrite get_fold_assign. by rewrite app_nil_r. Qed.

(** A spread object that lacks a key leaves the key as written before it. *)
Lemma get_fromEntries_spread (literal spread : JsObject) (k : string) :
  k ∉ keys spread ->
  get (fromEntries (literal ++ spread)) k = get (fromEntries literal) k.
Proof.
  intros Hk. rewrite !get_fromEntries, rev_app_distr, get_app.
  rewrite bool_decide_eq_false_2; [done|].
  unfold keys. rewrite map_rev. by rewrite list_elem_of_In, <- in_rev, <- list_elem_of_In.
Qed.

(** With no key written twice, every entry is read back under its key. *)
Lemma get_fromEntries_NoDup (entries : list (string * JsVal)) (k : string) (v : JsVal) :
  NoDup (keys entries) -> (k, v) ∈ entries -> get (fromEntries entries) k = v.
Proof.
  rewrite get_fromEntries. unfold keys.
  induction entries as [|[k' v'] entries IH]; simpl; intros Hnodup Hin.
  - by apply elem_of_nil in Hin.
  - apply NoDup_cons in Hnodup as [Hfresh Hnodup]. rewrite get_app.
    apply elem_of_cons in Hin as [[= -> ->]|Hin].
    + rewrite bool_decide_eq_false_2.
      * simpl. by rewrite String.eqb_refl.
      * unfold keys. by rewrite map_rev, list_elem_of_In, <- in_rev, <- list_elem_of_In.
    + rewrite bool_decide_eq_true_2; [by apply IH|].
      unfold keys. rewrite map_rev, list_elem_of_In, <- in_rev, <- list_elem_of_In.
      by apply (list_elem_of_fmap_2 fst) in Hin.
Qed.

Section MapperFacts.
Context `{ChangeCase}.

(** *** Literal and reference values *)

Lemma maybeArg_reference (value : string) :
  referencePrefix value -> maybeArg value [] = TfArg value.
Proof.
  intros Href. unfold maybeArg. simpl.
  destruct Href as [Hvar|Hlocal].
  - apply startsWith_iff in Hvar. by rewrite Hvar.
  - apply startsWith_iff in Hlocal. rewrite Hlocal.
    by destruct (startsWith value "var.").
Qed.

Lemma maybeArg_literal (value : string) :
  ~ referencePrefix value -> maybeArg value [] = JsStr value.
Proof.
  intros Href. unfold maybeArg. simpl.
  destruct (startsWith value "var.") eqn:Hvar.
  { exfalso. apply Href. left. by apply startsWith_iff. }
  destruct (startsWith value "local.") eqn:Hlocal.
  { exfalso. apply Href. right. by apply startsWith_iff. }
  done.
Qed.

Lemma referencePrefix_dec (value : string) :
  referencePrefix value \/ ~ referencePrefix value.
Proof.
  destruct (startsWith value "var.") eqn:Hvar.
  { left. left. by apply startsWith_iff. }
  destruct (startsWith value "local.") eqn:Hlocal.
  { left. right. by apply startsWith_iff. }
  right. intros [Hv|Hl]; apply startsWith_iff in Hv || apply startsWith_iff in Hl;
    congruence.
Qed.

(** C9. Every value an integration option builder reads from the
    configuration is passed through [maybeArg] without extra prefixes,
    and [maybeArg] embeds a string as an unquoted reference exactly when
    it starts with [var.] or [local.], and as the unchanged string
    literal exactly when it does not. *)
Theorem option_values_reference_iff_prefix (ctConfig : CtConfig) :
  map optionValue (ctConnectionOptions ctConfig)
    = map (fun value => maybeArg value []) (connectionValues ctConfig)
  /\ map optionValue (ctCategoryOptions ctConfig)
    = map (fun value => maybeArg value []) (categoryValues ctConfig)
  /\ forall value : string,
      (maybeArg value [] = TfArg value <-> referencePrefix value)
      /\ (maybeArg value [] = JsStr value <-> ~ referencePrefix value).
Proof.
  split; [reflexivity|]. split; [reflexivity|].
  intros value. split; split.
  - intros Harg. destruct (referencePrefix_dec value) as [|Hno]; [done|].
    rewrite (maybeArg_literal _ Hno) in Harg. discriminate.
  - apply maybeArg_reference.
  - intros Hlit Href. rewrite (maybeArg_reference _ Href) in Hlit. discriminate.
  - apply maybeArg_literal.
Qed.

(** *** Attributes of a classified field *)

Ltac by_cases Hok :=
  unfold bind in Hok; repeat case_match; simplify_eq; try reflexivity; eauto.

Lemma toComponentField_keys field type schema ctConfig o :
  toComponentField field type schema ctConfig = Ok o -> componentKeys o = true.
Proof.
  intros Hok. unfold toComponentField in Hok. cbv zeta in Hok.
  match type of Hok with
  | match ?found with Some result => result | None => ?scalar end = _ =>
      assert (Hscalar : forall o, scalar = Ok o -> componentKeys o = true);
      [ clear Hok; intros o' Hok
      | revert Hok Hscalar; generalize scalar; intros scalar' Hok Hscalar ]
  end; by_cases Hok.
Qed.

Lemma toArrayComponentField_keys field type schema ctConfig o :
  toArrayComponentField field type schema ctConfig = Ok o -> componentKeys o = true.
Proof. intros Hok. unfold toArrayComponentField in Hok. by_cases Hok. Qed.

Lemma componentKeys_spec (o : JsObject) (k : string) :
  componentKeys o = true -> k ∈ keys o -> k ∈ componentFieldKeys.
Proof.
  unfold componentKeys. rewrite forallb_forall. intros Hall Hk.
  apply list_elem_of_In in Hk. apply Hall in Hk.
  apply existsb_exists in Hk as (k' & Hin & Heq).
  apply String.eqb_eq in Heq as ->. by apply list_elem_of_In.
Qed.

(** Whatever a field classifies to, the classifier wrote neither a
    [required] nor a [position] attribute. *)
Lemma classified_keys field schema ctConfig o :
  switchArray (field_type field)
    (fun subType => toArrayComponentField field subType schema ctConfig)
    (fun type => toComponentField field type schema ctConfig) = Ok o ->
  ("required" ∉ keys o) /\ ("position" ∉ keys o).
Proof.
  intros Hok.
  assert (componentKeys o = true) as Hkeys.
  { unfold switchArray in Hok.
    repeat case_match;
      eauto using toComponentField_keys, toArrayComponentField_keys. }
  split; intros Hin; apply (componentKeys_spec _ _ Hkeys) in Hin;
    apply list_elem_of_In in Hin; simpl in Hin;
    repeat (destruct Hin as [Hin|Hin]; [discriminate Hin|]); done.
Qed.

Lemma sequence_imap_Ok {A B} (f : nat -> A -> Result B) (l : list A) (ys : list B) :
  sequence (imap f l) = Ok ys ->
  Forall2 (fun x y => exists i, f i x = Ok y) l ys.
Proof.
  revert f ys. induction l as [|x l IH]; intros f ys; simpl.
  - intros [= <-]. constructor.
  - destruct (f 0 x) as [y|e] eqn:Hy; simpl; [|discriminate].
    destruct (sequence (imap (f ∘ S) l)) as [ys'|e] eqn:Hys; simpl; [|discriminate].
    intros [= <-]. constructor; [by exists 0|].
    apply IH in Hys. eapply Forall2_impl; [exact Hys|].
    intros x' y' [i Hi]. by exists (S i).
Qed.

(** *** Ordinary fields *)

Lemma normalFields_entries node schema ctConfig entries :
  normalFields node schema ctConfig = Ok entries ->
  Forall2
    (fun field entry =>
       exists position componentField,
         switchArray (field_type field)
           (fun subType => toArrayComponentField field subType schema ctConfig)
           (fun type => toComponentField field type schema ctConfig)
         = Ok componentField
         /\ entry.1 = field_name field
         /\ exists literal,
             entry.2 = TfMap (fromEntries (literal ++ componentField))
             /\ get (fromEntries literal) "required"
                = JsBool (isNonNullType (field_type field))
             /\ get (fromEntries literal) "position" = JsNum (Z.of_nat position))
    (storyblokFields node) entries.
Proof.
  unfold normalFields, storyblokFields.
  destruct (node_fields node) as [fields|]; simpl.
  - intros Hseq. apply sequence_imap_Ok in Hseq.
    eapply Forall2_impl; [exact Hseq|].
    intros field entry [position Hentry]. exists position.
    destruct (switchArray _ _ _) as [componentField|e];
      cbv beta iota delta [bind] in Hentry; [|discriminate].
    injection Hentry as <-. exists componentField.
    split; [done|]. split; [done|].
    eexists [_; _; _; _; _; _; _]. split; [reflexivity|].
    rewrite !get_fromEntries. by simpl.
  - intros [= <-]. constructor.
Qed.

Lemma normalFields_keys node schema ctConfig entries :
  normalFields node schema ctConfig = Ok entries ->
  map fst entries = map field_name (storyblokFields node).
Proof.
  intros Hok. apply normalFields_entries in Hok.
  induction Hok as [|field entry fields entries Hentry _ IH]; simpl; [done|].
  destruct Hentry as (_ & _ & _ & Hname & _). by rewrite Hname, IH.
Qed.

Lemma toSchema_Ok node schema ctConfig fields :
  toSchema node schema ctConfig = Ok fields ->
  exists entries,
    normalFields node schema ctConfig = Ok entries
    /\ fields = fromEntries (entries ++ sectionFields node ++ tabFields node).
Proof.
  unfold toSchema. destruct (normalFields node schema ctConfig) as [entries|e];
    simpl; [|discriminate].
  intros [= <-]. by exists entries.
Qed.

Lemma normalFields_required node schema ctConfig entries :
  normalFields node schema ctConfig = Ok entries ->
  Forall2 requiredAsDeclared (storyblokFields node) entries.
Proof.
  intros Hok. apply normalFields_entries in Hok.
  eapply Forall2_impl; [exact Hok|].
  intros field entry (position & componentField & Hcf & Hname & literal & Hspec & Hreq & _).
  split; [done|].
  exists (fromEntries (literal ++ componentField)), (isNonNullType (field_type field)).
  split; [done|]. split.
  - apply classified_keys in Hcf as [Hrequired _].
    by rewrite get_fromEntries_spread.
  - destruct (field_type field); simpl; split;
      try discriminate; try (intros [type' Htype]; discriminate); eauto.
Qed.


(** X9.  Read back from the mapping: when no key is written twice, the
    entry under the name of a field that carries the directive has
    [required] as the field declares it. *)
Corollary required_in_mapping (node : ObjectTypeDefinitionNode)
    (schema : GraphQLSchema) (ctConfig : option CtConfig) (fields : JsObject)
    (field : FieldDefinitionNode) :
  toSchema node schema ctConfig = Ok fields ->
  NoDup (map field_name (storyblokFields node)
         ++ keys (sectionFields node) ++ keys (tabFields node)) ->
  field ∈ storyblokFields node ->
  requiredAsDeclared field (field_name field, get fields (field_name field)).
Proof.
  intros Hok Hnodup Hfield.
  apply toSchema_Ok in Hok as (entries & Hentries & ->).
  apply normalFields_required in Hentries.
  assert (map fst entries = map field_name (storyblokFields node)) as Hkeys.
  { clear Hnodup Hfield.
    induction Hentries as [|f e fs es [Hname _] _ IH]; simpl; [done|].
    by rewrite Hname, IH. }
  apply list_elem_of_lookup in Hfield as [i Hi].
  destruct (Forall2_lookup_l _ _ _ _ _ Hentries Hi) as (entry & Hentry & Hspec).
  destruct Hspec as [Hname Hspec]. split; [done|]. simpl.
  rewrite (get_fromEntries_NoDup _ (field_name field) entry.2); [done| |].
  - unfold keys. rewrite !map_app. fold (keys (sectionFields node)).
    fold (keys (tabFields node)). by rewrite Hkeys.
  - apply elem_of_app. left. apply list_elem_of_lookup. exists i.
    rewrite Hentry. f_equal. destruct entry. simpl in *. by subst.
Qed.

(** *** Positions *)

Lemma positions_app (a b : JsObject) : positions (a ++ b) = positions a ++ positions b.
Proof. apply map_app. Qed.

Lemma positions_imap (g : nat -> JsPrim -> string * JsVal) (offset : nat)
    (names : list JsPrim) :
  (forall i name, positions [g i name] = [positionOf (i + offset)]) ->
  positions (imap g names) = map positionOf (seq offset (length names)).
Proof.
  revert g offset. induction names as [|name names IH]; intros g offset Hg; simpl; [done|].
  f_equal.
  - specialize (Hg 0 name). simpl in Hg. by injection Hg.
  - apply (IH (g ∘ S) (S offset)). intros i name'.
    replace (i + S offset) with (S i + offset) by lia. apply (Hg (S i)).
Qed.

Lemma positions_sequence_imap {A} (f : nat -> A -> Result (string * JsVal))
    (offset : nat) (l : list A) (entries : list (string * JsVal)) :
  (forall i x entry, f i x = Ok entry -> positions [entry] = [positionOf (i + offset)]) ->
  sequence (imap f l) = Ok entries ->
  positions entries = map positionOf (seq offset (length l)).
Proof.
  revert f offset entries.
  induction l as [|x l IH]; intros f offset entries Hf; simpl.
  - by intros [= <-].
  - destruct (f 0 x) as [entry|e] eqn:Hentry; simpl; [|discriminate].
    destruct (sequence (imap (f ∘ S) l)) as [entries'|e] eqn:Hentries; simpl;
      [|discriminate].
    intros [= <-]. simpl. f_equal.
    + apply Hf in Hentry. simpl in Hentry. by injection Hentry.
    + apply (IH (f ∘ S) (S offset)); [|done]. intros i x' entry' Hentry'.
      replace (i + S offset) with (S i + offset) by lia. by apply (Hf (S i) x').
Qed.

Lemma sectionFields_length node :
  length (sectionFields node)
  = default 0 (length <$> getUniqueDirectiveProps node "section").
Proof.
  unfold sectionFields. destruct (getUniqueDirectiveProps node "section"); simpl; [|done].
  by rewrite length_imap.
Qed.

Lemma tabFields_length node :
  length (tabFields node)
  = default 0 (length <$> getUniqueDirectiveProps node "tab").
Proof.
  unfold tabFields. destruct (getUniqueDirectiveProps node "tab"); simpl; [|done].
  by rewrite length_imap.
Qed.

(** The positions of the entries [toSchema] writes: the ordinary fields
    count from 0, the section groups from the number of declared fields,
    the tab groups from there on. *)
Lemma schema_positions node schema ctConfig entries :
  normalFields node schema ctConfig = Ok entries ->
  positions (entries ++ sectionFields node ++ tabFields node)
  = map positionOf
      (seq 0 (length (storyblokFields node))
       ++ seq (fieldsLength node) (length (sectionFields node))
       ++ seq (length (sectionFields node) + fieldsLength node)
            (length (tabFields node))).
Proof.
  intros Hok. rewrite !positions_app, !map_app. f_equal; [|f_equal].
  - revert Hok. unfold normalFields, storyblokFields.
    destruct (node_fields node) as [fields|]; simpl; [|by intros [= <-]].
    apply positions_sequence_imap. intros i field entry Hentry.
    destruct (switchArray _ _ _) as [componentField|e] eqn:Hcf;
      cbv beta iota delta [bind] in Hentry; [|discriminate].
    injection Hentry as <-. apply classified_keys in Hcf as [_ Hposition].
    unfold positions. simpl.
    change (?a :: ?b :: ?c :: ?d :: ?e :: ?f :: ?g :: componentField)
      with ([a; b; c; d; e; f; g] ++ componentField).
    rewrite get_fromEntries_spread by done.
    rewrite get_fromEntries. simpl. unfold positionOf. do 3 f_equal. lia.
  - rewrite sectionFields_length. unfold sectionFields.
    destruct (getUniqueDirectiveProps node "section") as [names|]; simpl; [|done].
    apply positions_imap. intros i name. reflexivity.
  - rewrite sectionFields_length, tabFields_length. unfold tabFields.
    destruct (getUniqueDirectiveProps node "tab") as [names|]; simpl; [|done].
    apply positions_imap. intros i name. unfold positions. simpl.
    unfold positionOf. do 3 f_equal. lia.
Qed.

(** X11.  When every declared field carries the directive, the positions
    of the entries [toSchema] writes are 0, 1, 2, ... without a gap. *)
Corollary positions_contiguous node schema ctConfig entries :
  normalFields node schema ctConfig = Ok entries ->
  length (storyblokFields node) = fieldsLength node ->
  positions (entries ++ sectionFields node ++ tabFields node)
  = map positionOf
      (seq 0 (length (entries ++ sectionFields node ++ tabFields node))).
Proof.
  intros Hok Hall. rewrite (schema_positions _ _ _ _ Hok). f_equal.
  assert (length entries = length (storyblokFields node)) as Hlen.
  { apply normalFields_keys in Hok.
    by rewrite <- (length_map fst), Hok, length_map. }
  rewrite !length_app, !seq_app, Hlen, Hall. simpl.
  do 2 f_equal. f_equal. lia.
Qed.

(** *** Field groups *)

(** C3 (amended). For a type definition with two fields both tagged
    [tab: "Info"], one of them also tagged [section: "Basics"] and the
    other without a section, the member keys of the "Info" tab group are
    the names of both fields in declaration order, the section's member
    among them, followed by the key of the "Basics" section group. *)
Theorem tab_keys_with_section (node : ObjectTypeDefinitionNode)
    (first second : FieldDefinitionNode) :
  node_fields node = Some [first; second] ->
  valueOf (findStoryblokFieldValue first "tab") = JsStr "Info" ->
  valueOf (findStoryblokFieldValue second "tab") = JsStr "Info" ->
  (findStoryblokFieldValue first "section" = None
   /\ valueOf (findStoryblokFieldValue second "section") = JsStr "Basics")
  \/ (valueOf (findStoryblokFieldValue first "section") = JsStr "Basics"
      /\ findStoryblokFieldValue second "section" = None) ->
  get (toFieldGroupComponentField node "tab" (JsStr "Info")) "keys"
  = strings [field_name first; field_name second; camelCase "section Basics"].
Proof.
  intros Hfields Hfirst Hsecond Hsection.
  unfold toFieldGroupComponentField. rewrite Hfields. simpl.
  rewrite Hfirst, Hsecond. simpl.
  destruct Hsection as [[Hnone Hbasics]|[Hbasics Hnone]].
  - assert (is_Some (findStoryblokFieldValue second "section")) as Hsome.
    { destruct (findStoryblokFieldValue second "section"); [eauto | discriminate]. }
    rewrite Hnone, (bool_decide_eq_true_2 _ Hsome). simpl.
    rewrite Hbasics. reflexivity.
  - assert (is_Some (findStoryblokFieldValue first "section")) as Hsome.
    { destruct (findStoryblokFieldValue first "section"); [eauto | discriminate]. }
    rewrite Hnone, (bool_decide_eq_true_2 _ Hsome). simpl.
    rewrite Hbasics. reflexivity.
Qed.

(** *** Classification by type shape *)

Lemma typeNames_definitionNodes types :
  typeNames types
  = match definitionNodes types with
    | Some nodes => Ok (memberNames nodes)
    | None => Throw TypeError
    end.
Proof.
  destruct types as [members|]; [|reflexivity].
  unfold typeNames, definitionNodes, memberNames.
  assert (sequence (map (fun t => match t with
                                  | Some t => Ok (snakeCase (node_name t))
                                  | None => Throw TypeError
                                  end) members)
          = match allDefined members with
            | Some nodes => Ok (map (fun t => snakeCase (node_name t)) nodes)
            | None => Throw TypeError
            end) as ->.
  { induction members as [|[member|] members IH]; simpl; [done| |done].
    rewrite IH. by destruct (allDefined members). }
  by destruct (allDefined members).
Qed.

Lemma every_definitionNodes (p : option ConstValueNode -> bool) types nodes :
  definitionNodes types = Some nodes ->
  every (fun member => p (memberValue member "type")) types
  = every (fun node => p (findStoryblokValue node "type")) nodes.
Proof.
  destruct types as [members|]; simpl; [|by intros [= <-]].
  destruct (allDefined members) as [defined|] eqn:Hdefined; simpl; [|done].
  intros [= <-]. simpl. revert defined Hdefined.
  induction members as [|[member|] members IH]; simpl; intros defined; [by intros [= <-]| |done].
  destruct (allDefined members) as [defined'|]; simpl; [|done].
  intros [= <-]. simpl. by rewrite (IH defined').
Qed.

(** X18.  The singular classifier on an object or union type: a content
    reference when every member is tagged [type: contentType], nested
    components otherwise; a [TypeError] when a member has no definition
    node. *)
Lemma singular_object_or_union (field : FieldDefinitionNode) (type : TypeNode)
    (schema : GraphQLSchema) (ctConfig : option CtConfig) (node : GraphQLNamedType) :
  getType schema (typeName type) = Some node ->
  objectOrUnion node ->
  typeName type ∉ ["StoryblokAsset"; "StoryblokLink"; "StoryblokSeo"; "StoryblokTable"] ->
  toComponentField field type schema ctConfig
  = match definitionNodes (memberTypes schema node) with
    | None => Throw TypeError
    | Some types =>
        Ok (if every (fun member =>
                        bool_decide (valueOf (findStoryblokValue member "type")
                                     = JsStr "contentType"))
                 types
            then [("type", Prim (JsStr "option"));
                  ("source", Prim (JsStr "internal_stories"));
                  ("filter_content_type", memberNames types);
                  ("folder_slug",
                    Prim (valueOf (findStoryblokFieldValue field "folder")));
                  ("use_uuid", Prim (JsBool true))]
            else [("type", Prim (JsStr "bloks"));
                  ("component_whitelist", memberNames types);
                  ("restrict_components", Prim (JsBool true));
                  ("minimum",
                    JsNum (if isNonNullType (field_type field) then 1 else 0));
                  ("maximum", JsNum 1)])
    end.
Proof.
  intros Hnode Hshape Hname.
  repeat (apply not_elem_of_cons in Hname as [?%String.eqb_neq Hname]).
  unfold toComponentField. rewrite Hnode.
  pose proof (every_definitionNodes
                (fun value => bool_decide (valueOf value = JsStr "contentType"))
                (memberTypes schema node)) as Hevery.
  destruct node as [| | |? [astNode|]| |]; try done;
    repeat match goal with Heq : (_ =? _) = false |- _ => rewrite Heq; clear Heq end;
    cbn [isObjectType orb]; cbv zeta;
    rewrite !typeNames_definitionNodes;
    (destruct (definitionNodes (memberTypes schema _)) as [nodes|];
     [rewrite (Hevery nodes eq_refl); by destruct (every _ nodes)
     |by destruct (every _ _)]).
Qed.

(** X16.  The list classifier on an object or union type: a content
    reference when every member is tagged [type: contentType] or
    [type: universal], nested components otherwise; a [TypeError] when a
    member has no definition node. *)
Lemma array_object_or_union (field : FieldDefinitionNode) (type : TypeNode)
    (schema : GraphQLSchema) (ctConfig : option CtConfig) (node : GraphQLNamedType) :
  getType schema (typeName type) = Some node ->
  isObjectType node || isUnionType node = true ->
  type_name node <> "StoryblokAsset" ->
  toArrayComponentField field type schema ctConfig
  = match definitionNodes (memberTypes schema node) with
    | None => Throw TypeError
    | Some types =>
        Ok (if every (fun member =>
                        let type :=
                          nullish (valueOf (findStoryblokValue member "type"))
                            (JsStr "") in
                        bool_decide (type = JsStr "contentType")
                        || bool_decide (type = JsStr "universal"))
                 types
            then [("type", Prim (JsStr "options"));
                  ("source", Prim (JsStr "internal_stories"));
                  ("filter_content_type", memberNames types);
                  ("use_uuid", Prim (JsBool true));
                  ("folder_slug",
                    Prim (valueOf (findStoryblokFieldValue field "folder")))]
            else [("type", Prim (JsStr "bloks"));
                  ("component_whitelist", memberNames types);
                  ("restrict_components", Prim (JsBool true));
                  ("minimum",
                    ifValue (valueOf (findStoryblokFieldValue field "min")) NumberOf);
                  ("maximum",
                    ifValue (valueOf (findStoryblokFieldValue field "max")) NumberOf)])
    end.
Proof.
  intros Hnode Hshape Hname%String.eqb_neq.
  unfold toArrayComponentField. rewrite Hnode, Hname.
  pose proof (every_definitionNodes
                (fun value =>
                   bool_decide (nullish (valueOf value) (JsStr "") = JsStr "contentType")
                   || bool_decide (nullish (valueOf value) (JsStr "") = JsStr "universal"))
                (memberTypes schema node)) as Hevery.
  destruct node; try done; cbv zeta;
    rewrite !typeNames_definitionNodes;
    (destruct (definitionNodes (memberTypes schema _)) as [nodes|];
     [rewrite (Hevery nodes eq_refl); by destruct (every _ nodes)
     |by destruct (every _ _)]).
Qed.

(** C4 (amended). A list field whose element type is no enum, object or
    union type of the schema and is named neither [StoryblokAsset] nor
    [CtTypeId] throws the unsupported-array-type error naming the type,
    unless the type is [String]: a list of [String] returns the
    [options] variant of the internal datasource when the field has a
    truthy [datasource] argument, and throws the datasource-required
    error otherwise. *)
Theorem array_of_other_type (field : FieldDefinitionNode) (type : TypeNode)
    (schema : GraphQLSchema) (ctConfig : option CtConfig) :
  keyedByName schema (typeName type) ->
  notEnumObjectUnion (getType schema (typeName type)) ->
  typeName type <> "StoryblokAsset" ->
  typeName type <> "CtTypeId" ->
  (typeName type <> "String" ->
     toArrayComponentField field type schema ctConfig
     = Throw (Error ("Unsupported array type " +:+ typeName type)))
  /\ (typeName type = "String" ->
      let datasource := valueOf (findStoryblokFieldValue field "datasource") in
      toArrayComponentField field type schema ctConfig
      = if truthy datasource
        then Ok [("type", Prim (JsStr "options"));
                 ("datasource_slug", Prim datasource);
                 ("source", Prim (JsStr "internal"));
                 ("use_uuid", Prim (JsBool true))]
        else Throw (Error "Datasource is required for type String")).
Proof.
  intros Hkeyed Hshape Hasset Hct.
  assert (toArrayComponentField field type schema ctConfig
          = if String.eqb (typeName type) "String" then
              let datasource := valueOf (findStoryblokFieldValue field "datasource") in
              if negb (truthy datasource) then
                Throw (Error ("Datasource is required for type " +:+ typeName type))
              else
                Ok [("type", Prim (JsStr "options"));
                    ("datasource_slug", Prim datasource);
                    ("source", Prim (JsStr "internal"));
                    ("use_uuid", Prim (JsBool true))]
            else Throw (Error ("Unsupported array type " +:+ typeName type))) as ->.
  { unfold toArrayComponentField. unfold keyedByName in Hkeyed.
    apply String.eqb_neq in Hasset, Hct.
    destruct (getType schema (typeName type)) as [node|] eqn:Hnode.
    - rewrite Hkeyed, Hasset, Hct.
      destruct node; simpl in Hshape; done.
    - by rewrite Hct. }
  split.
  - intros Hstring. apply String.eqb_neq in Hstring. by rewrite Hstring.
  - intros ->. simpl. by destruct (truthy _).
Qed.

(** C5 (amended). A field of the [CtTypeId] type, singular or list,
    classified without an integration configuration throws the
    missing-configuration error, whose message names the type of the
    field: [Commercetools config is required for type CtTypeId]. *)
Theorem ct_type_id_without_config (field : FieldDefinitionNode)
    (type : TypeNode) (schema : GraphQLSchema) :
  typeName type = "CtTypeId" ->
  keyedByName schema "CtTypeId" ->
  notEnumObjectUnion (getType schema "CtTypeId") ->
  toComponentField field type schema None
    = Throw (Error "Commercetools config is required for type CtTypeId")
  /\ toArrayComponentField field type schema None
    = Throw (Error "Commercetools config is required for type CtTypeId").
Proof.
  intros Htype Hkeyed Hshape. unfold keyedByName in Hkeyed.
  unfold toComponentField, toArrayComponentField. rewrite Htype.
  destruct (getType schema "CtTypeId") as [node|] eqn:Hnode.
  - destruct node; simpl in Hshape; try done; simpl in Hkeyed; subst;
      split; reflexivity.
  - split; reflexivity.
Qed.

(** *** Rich text *)

Lemma elem_of_uniqueFrom {A} `{EqDecision A} (seen l : list A) (x : A) :
  x ∈ uniqueFrom id seen l <-> x ∈ l /\ x ∉ seen.
Proof.
  revert seen. induction l as [|y l IH]; intros seen; simpl.
  - split; [by intros ?%elem_of_nil | by intros [?%elem_of_nil _]].
  - case_bool_decide as Hy.
    + rewrite IH, elem_of_cons. split.
      * intros [Hin Hseen]. split; [by right|done].
      * intros [[->|Hin] Hseen]; [done|by split].
    + rewrite !elem_of_cons, IH, not_elem_of_cons. split.
      * intros [->|[Hin [Hne Hseen]]]; [by split; [left|]|]. split; [by right|done].
      * intros [[->|Hin] Hseen]; [by left|].
        destruct (decide (x = y)) as [->|Hne]; [by left|]. right. by repeat split.
Qed.

Lemma NoDup_uniqueFrom {A} `{EqDecision A} (seen l : list A) :
  NoDup (uniqueFrom id seen l).
Proof.
  revert seen. induction l as [|y l IH]; intros seen; simpl; [constructor|].
  case_bool_decide; [apply IH|].
  apply NoDup_cons. split; [|apply IH].
  rewrite elem_of_uniqueFrom. intros [_ Hseen]. apply Hseen. apply list_elem_of_here.
Qed.

Lemma uniqueFrom_snoc {A} `{EqDecision A} (seen l : list A) (x : A) :
  uniqueFrom id seen (l ++ [x])
  = uniqueFrom id seen l ++ (if bool_decide (x ∈ seen ++ l) then [] else [x]).
Proof.
  revert seen. induction l as [|y l IH]; intros seen; simpl.
  - rewrite app_nil_r. by destruct (bool_decide (x ∈ seen)).
  - destruct (bool_decide (y ∈ seen)) eqn:Hy.
    + apply bool_decide_eq_true in Hy. rewrite IH. f_equal.
      rewrite (bool_decide_ext (x ∈ seen ++ l) (x ∈ seen ++ y :: l)); [done|].
      rewrite !elem_of_app, elem_of_cons. split; [tauto|].
      intros [Hin|[->|Hin]]; auto.
    + rewrite IH. simpl. do 2 f_equal.
      rewrite (bool_decide_ext (x ∈ y :: seen ++ l) (x ∈ seen ++ y :: l)); [done|].
      rewrite !elem_of_app, !elem_of_cons, elem_of_app. tauto.
Qed.

Lemma uniqueBy_nonempty {A} `{EqDecision A} (l : list A) :
  l <> [] -> uniqueBy id l <> [].
Proof. destruct l as [|x l]; [done|]. intros _. unfold uniqueBy. simpl. done. Qed.

Lemma elem_of_filterValues {A} (l : list (option A)) (x : A) :
  x ∈ filterValues l <-> Some x ∈ l.
Proof.
  unfold filterValues. rewrite list_elem_of_omap. split.
  - intros (y & Hin & Hy). simpl in Hy. by subst.
  - intros Hin. by exists (Some x).
Qed.

Lemma filterValues_app {A} (l k : list (option A)) :
  filterValues (l ++ k) = filterValues l ++ filterValues k.
Proof. apply omap_app. Qed.

(** The toolbar entries with the [blok] entry: the distinct configured
    entries, then [blok] unless it is configured. *)
Lemma toolbar_blok_once (toolbar : list ConstValueNode) :
  uniqueBy id
    (filterValues (map (fun v => paramCase <$> enumValue v) toolbar ++ [Some "blok"]))
  = uniqueBy id (configuredEntries toolbar)
    ++ (if bool_decide ("blok" ∈ configuredEntries toolbar) then [] else ["blok"]).
Proof.
  rewrite filterValues_app. unfold uniqueBy, configuredEntries.
  change (filterValues [Some "blok"]) with ["blok"].
  by rewrite uniqueFrom_snoc.
Qed.

(** Where [blok] stands among the toolbar entries. *)
Lemma toolbar_blok_place (configured : list string) :
  let names :=
    uniqueBy id configured
    ++ (if bool_decide ("blok" ∈ configured) then [] else ["blok"]) in
  NoDup names
  /\ "blok" ∈ names
  /\ (last names = Some "blok"
      <-> "blok" ∉ configured \/ last (uniqueBy id configured) = Some "blok").
Proof.
  intros names. subst names. unfold uniqueBy.
  pose proof (NoDup_uniqueFrom [] configured) as Hdistinct.
  pose proof (elem_of_uniqueFrom [] configured "blok") as Hin.
  case_bool_decide as Hblok.
  - rewrite app_nil_r. split; [done|]. split.
    + apply Hin. split; [done|apply not_elem_of_nil].
    + split; [by right|]. by intros [?|?].
  - split; [|split].
    + apply NoDup_app. split; [done|]. split; [|apply NoDup_singleton].
      intros x Hx ->%list_elem_of_singleton. apply Hblok. by apply Hin.
    + apply elem_of_app. right. apply list_elem_of_here.
    + rewrite last_snoc. split; [by left|done].
Qed.

(** C6 (amended). A singular [String] field with [format: richtext] and
    a [blokTypes] list naming at least one component (and neither a
    truthy [datasource] nor [ctType: category], which are classified
    before the format) yields a [richtext] spec with
    [restrict_components] set.  With a [toolbar] list argument its
    toolbar list holds the distinct configured entries in order, then
    [blok] unless a configured entry already is [blok]: it lists [blok]
    once, and ends with it exactly when no configured entry is [blok] or
    [blok] is the last of the distinct configured entries.  With no
    [toolbar] argument the spec has no toolbar list.  A [toolbar]
    argument that is no list is a [TypeError]. *)
Theorem richtext_toolbar_blok (field : FieldDefinitionNode) (type : TypeNode)
    (schema : GraphQLSchema) (ctConfig : option CtConfig)
    (blokTypes : list ConstValueNode) :
  typeName type = "String" ->
  notEnumObjectUnion (getType schema "String") ->
  truthy (valueOf (findStoryblokFieldValue field "datasource")) = false ->
  valueOf (findStoryblokFieldValue field "ctType") <> JsStr "category" ->
  valueOf (findStoryblokFieldValue field "format") = JsStr "richtext" ->
  findStoryblokFieldValue field "blokTypes" = Some (ListValue blokTypes) ->
  (exists name, StringValue name ∈ blokTypes) ->
  listOrAbsent (findStoryblokFieldValue field "linkFeatures") ->
  match findStoryblokFieldValue field "toolbar" with
  | None =>
      exists spec,
        toComponentField field type schema ctConfig = Ok spec
        /\ get spec "type" = JsStr "richtext"
        /\ get spec "toolbar" = JsUndefined
        /\ get spec "restrict_components" = JsBool true
  | Some (ListValue toolbar) =>
      exists spec names,
        toComponentField field type schema ctConfig = Ok spec
        /\ get spec "type" = JsStr "richtext"
        /\ get spec "restrict_components" = JsBool true
        /\ get spec "toolbar" = strings names
        /\ names
           = uniqueBy id (configuredEntries toolbar)
             ++ (if bool_decide ("blok" ∈ configuredEntries toolbar)
                 then [] else ["blok"])
        /\ NoDup names
        /\ "blok" ∈ names
        /\ (last names = Some "blok"
            <-> "blok" ∉ configuredEntries toolbar
                \/ last (uniqueBy id (configuredEntries toolbar)) = Some "blok")
  | Some _ => toComponentField field type schema ctConfig = Throw TypeError
  end.
Proof.
  intros Htype Hshape Hdatasource HctType Hformat HblokTypes [name Hname] HlinkFeatures.
  assert (exists component components,
             uniqueBy id
               (filterValues (map (fun v => snakeCase <$> stringValue v) blokTypes))
             = component :: components) as (component & components & Hcomponents).
  { destruct (uniqueBy id _) as [|c cs] eqn:Hu; [|by eauto].
    exfalso. revert Hu. apply uniqueBy_nonempty.
    intros Hnil. apply (not_elem_of_nil (snakeCase name)). rewrite <- Hnil.
    apply elem_of_filterValues.
    apply (list_elem_of_fmap_2 (fun v => snakeCase <$> stringValue v)) in Hname.
    exact Hname. }
  apply (bool_decide_eq_false_2 _) in HctType.
  unfold toComponentField. rewrite Htype.
  destruct (getType schema "String") as [[]|]; try done;
    cbn [isObjectType String.eqb Ascii.eqb Bool.eqb orb andb];
    rewrite Hdatasource, HctType, Hformat;
    unfold listArgument; rewrite HblokTypes.
  all: destruct (findStoryblokFieldValue field "toolbar") as [[| | | | |? |toolbar|]|];
    try reflexivity.
  all: rewrite bool_decide_eq_true_2 by done.
  all: cbv beta iota zeta delta [valuesMap bind].
  all: cbn [fmap option_fmap option_map].
  all: rewrite Hcomponents.
  all: destruct (findStoryblokFieldValue field "linkFeatures") as [[]|]; try done.
  all: try (eexists; split; [reflexivity|]; by simpl).
  all: rewrite toolbar_blok_once.
  all: eexists _, _; split; [reflexivity|].
  all: split; [by simpl|]; split; [by simpl|]; split; [by simpl|]; split; [reflexivity|].
  all: apply toolbar_blok_place.
Qed.

End MapperFacts.

(** ** Further properties of the mapper *)

(** *** Lists, strings and objects *)

Lemma includes_replaceUnderscores (value : string) :
  includes (replaceUnderscores value) "_" = false.
Proof.
  induction value as [|c value IH]; [reflexivity|].
  cbn [replaceUnderscores includes String.prefix]. rewrite IH.
  destruct (Ascii.eqb_spec c "_") as [->|Hc].
  - reflexivity.
  - destruct (ascii_dec "_" c) as [<-|]; [done|reflexivity].
Qed.

Lemma replaceUnderscores_id (value : string) :
  includes value "_" = false -> replaceUnderscores value = value.
Proof.
  induction value as [|c value IH]; [reflexivity|].
  cbn [replaceUnderscores includes String.prefix].
  destruct (ascii_dec "_" c) as [<-|Hc].
  - by destruct value.
  - simpl. intros Hvalue. rewrite IH by done.
    destruct (Ascii.eqb_spec c "_") as [->|]; [done|reflexivity].
Qed.

Lemma stringsOf_strings (l : list string) : stringsOf (strings l) = l.
Proof.
  unfold strings, stringsOf. induction l as [|s l IH]; [done|].
  cbn. f_equal. exact IH.
Qed.

Lemma elem_of_List_filter {A} (p : A -> bool) (l : list A) (x : A) :
  x ∈ List.filter p l <-> x ∈ l /\ p x = true.
Proof. rewrite !list_elem_of_In. apply filter_In. Qed.

Lemma filter_disjoint_app {A} (p q : A -> bool) (l : list A) :
  (forall x, p x = true -> q x = true -> False) ->
  List.filter p l ++ List.filter q l ≡ₚ List.filter (fun x => p x || q x) l.
Proof.
  intros Hpq. induction l as [|x l IH]; simpl; [done|].
  destruct (p x) eqn:Hp, (q x) eqn:Hq; simpl.
  - by destruct (Hpq x).
  - by rewrite IH.
  - rewrite <- IH. by rewrite <- Permutation_middle.
  - done.
Qed.

(** Grouping a list by the distinct keys of its members rearranges the
    members that have one of the keys. *)
Lemma concat_groups {A K} `{EqDecision K} (k : A -> K) (ks : list K) (l : list A) :
  NoDup ks ->
  concat (map (fun v => List.filter (fun x => bool_decide (k x = v)) l) ks)
  ≡ₚ List.filter (fun x => bool_decide (k x ∈ ks)) l.
Proof.
  induction ks as [|v ks IH]; simpl.
  - intros _. induction l as [|x l IHl]; simpl; [done|].
    rewrite ?bool_decide_eq_false_2 by apply not_elem_of_nil. exact IHl.
  - intros [Hv Hks]%NoDup_cons. rewrite (IH Hks).
    rewrite filter_disjoint_app.
    + erewrite List.filter_ext; [done|]. intros x. simpl.
      apply eq_true_iff_eq. rewrite orb_true_iff, !bool_decide_eq_true, elem_of_cons.
      done.
    + intros x Heq%bool_decide_eq_true Hin%bool_decide_eq_true. by subst.
Qed.

Lemma keys_imap {A} (g : nat -> A -> string * JsVal) (h : A -> string) (l : list A) :
  (forall i x, (g i x).1 = h x) -> keys (imap g l) = map h l.
Proof.
  revert g. induction l as [|x l IH]; intros g Hg; simpl; [done|].
  rewrite Hg. f_equal. apply (IH (g ∘ S)). intros i x'. apply Hg.
Qed.

#[local] Instance positionOf_inj : Inj (=) (=) positionOf.
Proof. intros i j [= Hij]. lia. Qed.

Lemma filter_length_le {A} (p : A -> bool) (l : list A) :
  length (List.filter p l) <= length l.
Proof. induction l as [|x l IH]; simpl; [done|]. destruct (p x); simpl; lia. Qed.

Lemma keys_assign (o : JsObject) (k : string) (v : JsVal) (key : string) :
  key ∈ keys (assign o k v) <-> key ∈ keys o \/ key = k.
Proof.
  unfold keys. induction o as [|[k' v'] o IH]; simpl.
  - rewrite list_elem_of_singleton. split; [by right|]. by intros [?%elem_of_nil|?].
  - destruct (String.eqb_spec k' k) as [->|Hne]; simpl.
    + rewrite elem_of_cons. split; [by left|]. intros [?| ->]; [done|by left].
    + rewrite !elem_of_cons, IH. tauto.
Qed.

Lemma keys_fold_assign (entries o : JsObject) (key : string) :
  key ∈ keys (fold_left (fun o e => assign o e.1 e.2) entries o)
  <-> key ∈ keys o \/ key ∈ keys entries.
Proof.
  revert o. induction entries as [|[k v] entries IH]; intros o; simpl.
  - split; [by left|]. by intros [?|?%elem_of_nil].
  - rewrite IH, keys_assign. unfold keys at 3. simpl. rewrite elem_of_cons.
    fold (keys entries). tauto.
Qed.

(** The keys of an object are those of the entries it is made from. *)
Lemma keys_fromEntries (entries : JsObject) (key : string) :
  key ∈ keys (fromEntries entries) <-> key ∈ keys entries.
Proof.
  unfold fromEntries. rewrite keys_fold_assign. split; [|by right].
  by intros [?%elem_of_nil|?].
Qed.

Lemma sequence_Throw {A} (l : list (Result A)) (e : Exception) :
  sequence l = Throw e -> Throw e ∈ l.
Proof.
  induction l as [|[x|e'] l IH]; simpl; [done| |].
  - destruct (sequence l) as [xs|e'']; simpl; [done|].
    intros [= ->]. apply list_elem_of_further. by apply IH.
  - intros [= ->]. apply list_elem_of_here.
Qed.

Section MapperBehaviour.
Context `{ChangeCase}.

Ltac by_cases Hok :=
  unfold bind in Hok; repeat case_match; simplify_eq; try reflexivity; eauto.

(** *** Kinds of the classified fields *)

(** X15.  Whatever the list classifier returns has as [type] one of
    [options], [multiasset], [bloks] and [custom]. *)
Theorem toArrayComponentField_kind field type schema ctConfig o :
  toArrayComponentField field type schema ctConfig = Ok o ->
  kindIn arrayKinds o = true.
Proof. intros Hok. unfold toArrayComponentField in Hok. by_cases Hok. Qed.

(** X17.  Whatever the singular classifier returns has as [type] one of
    the thirteen singular kinds; it never returns a [section], [tab],
    [options] or [multiasset] field. *)
Theorem toComponentField_kind field type schema ctConfig o :
  toComponentField field type schema ctConfig = Ok o ->
  kindIn singularKinds o = true.
Proof.
  intros Hok. unfold toComponentField in Hok. cbv zeta in Hok.
  match type of Hok with
  | match ?found with Some result => result | None => ?scalar end = _ =>
      assert (Hscalar : forall o, scalar = Ok o -> kindIn singularKinds o = true);
      [ clear Hok; intros o' Hok
      | revert Hok Hscalar; generalize scalar; intros scalar' Hok Hscalar ]
  end; by_cases Hok.
Qed.

(** *** Scalars and strings *)

Lemma eqb_not_in (name : string) (names : list string) :
  name ∉ names -> Forall (fun n => String.eqb name n = false) names.
Proof.
  intros Hnot. apply Forall_forall. intros n Hn. apply String.eqb_neq.
  intros ->. done.
Qed.

(** X19.  A singular field whose type name is none of the seven scalar
    names, and which is either absent from the schema or neither an
    enum, object or union type nor one of the four sentinel names, fails
    with [Unsupported type <name>]. *)
Theorem singular_unsupported_type field type schema ctConfig :
  getType schema (typeName type) = None
  \/ (notEnumObjectUnion (getType schema (typeName type))
      /\ typeName type ∉ sentinelNames) ->
  typeName type ∉ scalarNames ->
  toComponentField field type schema ctConfig
  = Throw (Error ("Unsupported type " +:+ typeName type)).
Proof.
  intros Hnode Hscalar.
  apply eqb_not_in in Hscalar.
  repeat (apply Forall_cons in Hscalar as [? Hscalar]).
  unfold toComponentField.
  destruct Hnode as [Hnone|[Hshape Hsentinel]].
  - rewrite Hnone.
    repeat match goal with Heq : (_ =? _) = false |- _ => rewrite Heq; clear Heq end.
    reflexivity.
  - apply eqb_not_in in Hsentinel.
    repeat (apply Forall_cons in Hsentinel as [? Hsentinel]).
    destruct (getType schema (typeName type)) as [[]|]; try done;
      repeat match goal with Heq : (_ =? _) = false |- _ => rewrite Heq; clear Heq end;
      reflexivity.
Qed.

(** X22.  A singular [String] field with a [datasource] that is not empty
    is an [option] on that datasource, whatever its [format] and [ctType]
    arguments are. *)
Theorem string_datasource_overrides field type schema ctConfig :
  typeName type = "String" ->
  notEnumObjectUnion (getType schema "String") ->
  truthy (valueOf (findStoryblokFieldValue field "datasource")) = true ->
  toComponentField field type schema ctConfig
  = Ok [("type", Prim (JsStr "option"));
        ("datasource_slug", Prim (valueOf (findStoryblokFieldValue field "datasource")));
        ("source", Prim (JsStr "internal"));
        ("use_uuid", Prim (JsBool true))].
Proof.
  intros Htype Hshape Hdatasource. unfold toComponentField. rewrite Htype.
  destruct (getType schema "String") as [[]|]; try done;
    cbn [isObjectType String.eqb Ascii.eqb Bool.eqb orb andb];
    by rewrite Hdatasource.
Qed.

(** X23.  A singular [String] field without datasource and with
    [ctType: category] is the [ct-category] custom field with the
    category options of the configuration; without a configuration it
    fails with an error that names the field. *)
Theorem string_category field type schema ctConfig :
  typeName type = "String" ->
  notEnumObjectUnion (getType schema "String") ->
  truthy (valueOf (findStoryblokFieldValue field "datasource")) = false ->
  valueOf (findStoryblokFieldValue field "ctType") = JsStr "category" ->
  toComponentField field type schema ctConfig
  = match ctConfig with
    | None =>
        Throw (Error ("Commercetools config is required for " +:+ field_name field))
    | Some ctConfig =>
        Ok [("type", Prim (JsStr "custom"));
            ("field_type", Prim (JsStr "ct-category"));
            ("options", TfList (ctCategoryOptions ctConfig))]
    end.
Proof.
  intros Htype Hshape Hdatasource HctType. unfold toComponentField. rewrite Htype.
  destruct (getType schema "String") as [[]|]; try done;
    cbn [isObjectType String.eqb Ascii.eqb Bool.eqb orb andb];
    by rewrite Hdatasource, HctType.
Qed.

(** X24.  A singular [String] field without datasource, with no
    [category] tag and with a [format] other than [richtext] and
    [markdown] is a [textarea] for [format: textarea] and a [text] for any
    other or no format; both carry [rtl] and [max_length], and only the
    [text] carries [regex]. *)
Theorem string_plain_formats field type schema ctConfig :
  typeName type = "String" ->
  notEnumObjectUnion (getType schema "String") ->
  truthy (valueOf (findStoryblokFieldValue field "datasource")) = false ->
  valueOf (findStoryblokFieldValue field "ctType") <> JsStr "category" ->
  valueOf (findStoryblokFieldValue field "format") <> JsStr "richtext" ->
  valueOf (findStoryblokFieldValue field "format") <> JsStr "markdown" ->
  toComponentField field type schema ctConfig
  = Ok ([("type",
           Prim (JsStr (if bool_decide (valueOf (findStoryblokFieldValue field "format")
                                        = JsStr "textarea")
                        then "textarea" else "text")));
         ("rtl", Prim (valueOf (findStoryblokFieldValue field "rtl")));
         ("max_length",
           ifValue (valueOf (findStoryblokFieldValue field "max")) NumberOf)]
        ++ if bool_decide (valueOf (findStoryblokFieldValue field "format")
                           = JsStr "textarea")
           then []
           else [("regex", Prim (valueOf (findStoryblokFieldValue field "regex")))]).
Proof.
  intros Htype Hshape Hdatasource HctType Hrich Hmark.
  apply (bool_decide_eq_false_2 _) in HctType, Hrich, Hmark.
  unfold toComponentField. rewrite Htype.
  destruct (getType schema "String") as [[]|]; try done;
    cbn [isObjectType String.eqb Ascii.eqb Bool.eqb orb andb];
    rewrite Hdatasource, HctType, Hrich, Hmark;
    by destruct (bool_decide (_ = JsStr "textarea")).
Qed.

(** *** Failure of the schema mapping *)

Lemma sequence_Ok_iff {A} (l : list (Result A)) :
  (exists xs, sequence l = Ok xs) <-> Forall (fun r => exists x, r = Ok x) l.
Proof.
  induction l as [|r l IH]; simpl.
  - split; [constructor | by eexists].
  - split.
    + intros [xs Hxs]. destruct r as [x|e]; simpl in Hxs; [|discriminate].
      destruct (sequence l) as [xs'|e]; simpl in Hxs; [|discriminate].
      constructor; [by eexists|]. apply IH. by eexists.
    + intros [[x ->] [xs Hxs]%IH]%Forall_cons. simpl. rewrite Hxs. simpl. by eexists.
Qed.

Lemma sequence_first_Throw {A} (before after : list (Result A)) (e : Exception) :
  Forall (fun r => exists x, r = Ok x) before ->
  sequence (before ++ Throw e :: after) = Throw e.
Proof.
  induction before as [|r before IH]; simpl; [done|].
  intros [[x ->] Hbefore]%Forall_cons. simpl. by rewrite IH.
Qed.

(** One ordinary entry, as the callback of [normalFields] builds it. *)
Lemma normalFields_unfold node schema ctConfig :
  normalFields node schema ctConfig
  = sequence
      (imap (fun position field =>
               bind (classifyField field schema ctConfig)
                 (fun componentField =>
                    Ok (field_name field,
                        TfMap
                          (fromEntries
                             ([("position", JsNum (Z.of_nat position));
                               ("translatable",
                                 Prim (valueOf (findStoryblokFieldValue field "translatable")));
                               ("default_value",
                                 Prim (valueOf (findStoryblokFieldValue field "default")));
                               ("no_translate",
                                 Prim (valueOf
                                         (findStoryblokFieldValue field "excludeFromExport")));
                               ("display_name",
                                 Prim (nullish
                                         (valueOf (findStoryblokFieldValue field "displayName"))
                                         (JsStr (sentenceCase (field_name field)))));
                               ("required", Prim (JsBool (isNonNullType (field_type field))));
                               ("description",
                                 Prim (from_option JsStr JsUndefined
                                         (field_description field)))]
                              ++ componentField)))))
         (storyblokFields node)).
Proof.
  unfold normalFields, storyblokFields. by destruct (node_fields node).
Qed.

Lemma Forall_imap_Ok {A B} (f : nat -> A -> Result B) (Q : A -> Prop) (l : list A) :
  (forall i x, (exists y, f i x = Ok y) <-> Q x) ->
  Forall (fun r => exists y, r = Ok y) (imap f l) <-> Forall Q l.
Proof.
  revert f. induction l as [|x l IH]; intros f Hf; simpl.
  - split; constructor.
  - rewrite !Forall_cons, Hf. rewrite (IH (f ∘ S)); [done|].
    intros i x'. apply Hf.
Qed.

Lemma entry_Ok_iff {A} (r : Result JsObject) (k : JsObject -> A) :
  (exists y, bind r (fun o => Ok (k o)) = Ok y) <-> exists o, r = Ok o.
Proof.
  destruct r as [o|e]; simpl; split; intros [y Hy]; try discriminate; by eexists.
Qed.

Lemma toSchema_normalFields node schema ctConfig :
  (exists fields, toSchema node schema ctConfig = Ok fields)
  <-> exists entries, normalFields node schema ctConfig = Ok entries.
Proof.
  unfold toSchema. destruct (normalFields node schema ctConfig); simpl;
    split; intros [x Hx]; try discriminate; by eexists.
Qed.

(** X6.  [toSchema] returns a mapping exactly when the classifier
    returns on every field that carries the [storyblokField] directive; a
    field without the directive is never classified, whatever its
    type. *)
Theorem toSchema_Ok_iff node schema ctConfig :
  (exists fields, toSchema node schema ctConfig = Ok fields)
  <-> Forall (fun field => exists o, classifyField field schema ctConfig = Ok o)
        (storyblokFields node).
Proof.
  rewrite toSchema_normalFields, normalFields_unfold, sequence_Ok_iff.
  apply Forall_imap_Ok. intros i field. apply entry_Ok_iff.
Qed.

(** X7.  When the classifier fails on a field that carries the
    directive and returns on those before it, [toSchema] fails with the
    error of that field: the first failure in declaration order is the
    one reported. *)
Theorem toSchema_first_error node schema ctConfig before field after e :
  storyblokFields node = before ++ field :: after ->
  Forall (fun field => exists o, classifyField field schema ctConfig = Ok o) before ->
  classifyField field schema ctConfig = Throw e ->
  toSchema node schema ctConfig = Throw e.
Proof.
  intros Hfields Hbefore Hfield. unfold toSchema.
  rewrite normalFields_unfold, Hfields, imap_app. simpl. rewrite Hfield. simpl.
  rewrite sequence_first_Throw; [done|].
  apply Forall_imap_Ok with (Q := fun field =>
    exists o, classifyField field schema ctConfig = Ok o); [|done].
  intros i x. apply entry_Ok_iff.
Qed.

(** C10. A declared field contributes an ordinary entry exactly when it
    carries the [storyblokField] directive.  [toSchema] returns a mapping
    exactly when the classifier returns on every field that carries the
    directive, and an error it raises is the classifier's on such a
    field: a field without the directive raises none.  The ordinary
    entries of the mapping are, in order, one for each field that
    carries the directive, keyed by its name, and the keys of the mapping
    are those names and the keys of the groups: a field without the
    directive adds none. *)
Theorem normal_fields_iff_storyblokField (node : ObjectTypeDefinitionNode)
    (schema : GraphQLSchema) (ctConfig : option CtConfig) :
  ((exists fields, toSchema node schema ctConfig = Ok fields)
   <-> Forall (fun field => exists o, classifyField field schema ctConfig = Ok o)
         (storyblokFields node))
  /\ (forall e,
        toSchema node schema ctConfig = Throw e ->
        exists field,
          field ∈ storyblokFields node
          /\ classifyField field schema ctConfig = Throw e)
  /\ (forall fields,
        toSchema node schema ctConfig = Ok fields ->
        exists entries,
          fields = fromEntries (entries ++ sectionFields node ++ tabFields node)
          /\ Forall2 (fun field entry =>
                        exists spec, entry = (field_name field, TfMap spec))
               (storyblokFields node) entries
          /\ forall key,
               key ∈ keys fields
               <-> key ∈ map field_name (storyblokFields node)
                   \/ key ∈ keys (sectionFields node)
                   \/ key ∈ keys (tabFields node)).
Proof.
  split; [|split].
  - rewrite toSchema_normalFields, normalFields_unfold, sequence_Ok_iff.
    apply Forall_imap_Ok. intros i field. apply entry_Ok_iff.
  - intros e. unfold toSchema. rewrite normalFields_unfold.
    destruct (sequence _) as [entries|e'] eqn:Hseq; simpl; [done|].
    intros [= ->]. apply sequence_Throw in Hseq.
    apply list_elem_of_lookup in Hseq as [position Hseq].
    apply list_lookup_imap_Some in Hseq as (field & Hfield & Hentry).
    exists field. split; [by eapply list_elem_of_lookup_2|].
    destruct (classifyField field schema ctConfig); simpl in Hentry; [done|].
    by injection Hentry as ->.
  - intros fields Hok. apply toSchema_Ok in Hok as (entries & Hentries & ->).
    exists entries. split; [done|]. split.
    + apply normalFields_entries in Hentries.
      eapply Forall2_impl; [exact Hentries|].
      intros field [key value]
        (position & componentField & _ & Hname & literal & Hspec & _).
      simpl in Hname, Hspec. rewrite Hname, Hspec. by eexists.
    + intros key. rewrite keys_fromEntries. unfold keys.
      rewrite !map_app, !elem_of_app.
      by rewrite (normalFields_keys _ _ _ _ Hentries).
Qed.

(** *** Icons and references *)

(** X5.  The icon value [toIconValue] returns has no underscore;
    applying [toIconValue] again changes nothing; a name without
    underscore is returned as it is. *)
Theorem toIconValue_clean (value : string) :
  includes (toIconValue value) "_" = false
  /\ toIconValue (toIconValue value) = toIconValue value
  /\ (includes value "_" = false -> toIconValue value = value).
Proof.
  unfold toIconValue.
  destruct (String.eqb_spec value "block_at") as [->|Hvalue];
    [repeat split; try reflexivity; discriminate|].
  pose proof (includes_replaceUnderscores value) as Hclean.
  split; [done|]. split.
  - destruct (String.eqb_spec (replaceUnderscores value) "block_at") as [Heq|_].
    + rewrite Heq in Hclean. discriminate.
    + by apply replaceUnderscores_id.
  - apply replaceUnderscores_id.
Qed.

(** X26.  [maybeArg] returns the value as a reference exactly when it
    starts with [var.], with [local.] or with one of the prefixes passed
    besides, and as the string it is exactly when it starts with none of
    them. *)
Theorem maybeArg_prefixes (value : string) (prefixes : list string) :
  (maybeArg value prefixes = TfArg value
   <-> exists prefix rest,
        prefix ∈ "var." :: "local." :: prefixes /\ value = prefix +:+ rest)
  /\ (maybeArg value prefixes = JsStr value
      <-> ~ exists prefix rest,
            prefix ∈ "var." :: "local." :: prefixes /\ value = prefix +:+ rest).
Proof.
  unfold maybeArg.
  destruct (existsb _ _) eqn:Hsome.
  - apply existsb_exists in Hsome as (prefix & Hin & Hprefix).
    apply startsWith_iff in Hprefix as [rest Hrest].
    apply list_elem_of_In in Hin.
    split; split; try done; eauto.
    intros Hno. exfalso. apply Hno. eauto.
  - split; split; try done.
    + intros (prefix & rest & Hin & Hrest).
      assert (existsb (fun prefix => startsWith value prefix)
                ("var." :: "local." :: prefixes) = true) as Htrue.
      { apply existsb_exists. exists prefix. split; [by apply list_elem_of_In|].
        apply startsWith_iff. eauto. }
      congruence.
    + intros _ (prefix & rest & Hin & Hrest).
      assert (existsb (fun prefix => startsWith value prefix)
                ("var." :: "local." :: prefixes) = true) as Htrue.
      { apply existsb_exists. exists prefix. split; [by apply list_elem_of_In|].
        apply startsWith_iff. eauto. }
      congruence.
Qed.

(** *** Components *)

Lemma toComponent_Ok node spaceId componentGroup schema ctConfig c :
  toComponent node spaceId componentGroup schema ctConfig = Ok c ->
  exists icon fields,
    toSchema node schema ctConfig = Ok fields
    /\ c = fromEntries
             ([("name", Prim (JsStr (snakeCase (node_name node))));
               ("space_id", JsNum spaceId);
               ("is_root",
                 Prim (JsBool
                         (bool_decide (nullish (valueOf (findStoryblokValue node "type"))
                                         (JsStr "") = JsStr "contentType")
                          || bool_decide (nullish (valueOf (findStoryblokValue node "type"))
                                            (JsStr "") = JsStr "universal"))));
               ("is_nestable",
                 Prim (JsBool (negb (bool_decide (valueOf (findStoryblokValue node "type")
                                                  = JsStr "contentType")))));
               ("icon", icon);
               ("color", Prim (valueOf (findStoryblokValue node "color")));
               ("image", Prim (valueOf (findStoryblokValue node "image")));
               ("display_name", Prim (valueOf (findStoryblokValue node "displayName")));
               ("component_group_uuid",
                 from_option (fun r => TfAttr r "uuid") (Prim JsUndefined) componentGroup);
               ("schema", TfMap fields)]
              ++ previewField node).
Proof.
  unfold toComponent.
  destruct (valueOf (findStoryblokValue node "icon")) as [|b|icon] eqn:Hicon;
    cbv beta iota delta [bind]; try discriminate;
    destruct (toSchema node schema ctConfig) as [fields|e]; try discriminate;
    intros [= <-]; eauto.
Qed.

Lemma previewField_cases node :
  previewField node = []
  \/ (exists v, previewField node = [("preview_field", v)])
  \/ (exists v, previewField node = [("preview_tmpl", v)]).
Proof. unfold previewField. repeat case_match; eauto. Qed.

(** X1.  A component [toComponent] returns holds, under [schema], the
    mapping [toSchema] returns on the same type definition, and under
    [name], [space_id] and [component_group_uuid] the snake-cased type
    name, the space id and the [uuid] attribute of the group (nothing
    without a group); its keys are the ten fixed attributes followed by
    those of the preview selector. *)
Theorem toComponent_attributes node spaceId componentGroup schema ctConfig c :
  toComponent node spaceId componentGroup schema ctConfig = Ok c ->
  exists fields,
    toSchema node schema ctConfig = Ok fields
    /\ get c "schema" = TfMap fields
    /\ get c "name" = JsStr (snakeCase (node_name node))
    /\ get c "space_id" = JsNum spaceId
    /\ get c "component_group_uuid"
       = from_option (fun r => TfAttr r "uuid") (Prim JsUndefined) componentGroup
    /\ keys c = componentAttributes ++ keys (previewField node).
Proof.
  intros (icon & fields & Hfields & ->)%toComponent_Ok. exists fields.
  split; [done|].
  destruct (previewField_cases node) as [->|[[v ->]|[v ->]]]; by repeat split.
Qed.

(** X2.  In a component [toComponent] returns, [is_root] and
    [is_nestable] are booleans: [is_nestable] is [false] exactly for
    [type: contentType], [is_root] is [true] exactly for [contentType]
    and [universal], so a component that is no root is nestable. *)
Theorem root_or_nestable node spaceId componentGroup schema ctConfig c :
  toComponent node spaceId componentGroup schema ctConfig = Ok c ->
  exists root nestable : bool,
    get c "is_root" = JsBool root
    /\ get c "is_nestable" = JsBool nestable
    /\ (nestable = false
        <-> valueOf (findStoryblokValue node "type") = JsStr "contentType")
    /\ (root = true
        <-> valueOf (findStoryblokValue node "type") = JsStr "contentType"
            \/ valueOf (findStoryblokValue node "type") = JsStr "universal")
    /\ (root = false -> nestable = true).
Proof.
  intros (icon & fields & Hfields & ->)%toComponent_Ok.
  eexists _, _.
  split; [destruct (previewField_cases node) as [->|[[v ->]|[v ->]]]; reflexivity|].
  split; [destruct (previewField_cases node) as [->|[[v ->]|[v ->]]]; reflexivity|].
  destruct (valueOf (findStoryblokValue node "type")) as [|b|s] eqn:Htype; simpl.
  - repeat split; try done. intros [|]; done.
  - repeat split; try done. intros [|]; done.
  - repeat case_bool_decide; simplify_eq; simpl; repeat split; try done;
      try (intros [|]; congruence); eauto.
Qed.

(** X3.  [toComponent] fails with a [TypeError] on an [icon] argument
    that is a boolean literal, which has no [replace] method; with any
    other [icon], an error of [toSchema] is the error of
    [toComponent]. *)
Theorem toComponent_throws node spaceId componentGroup schema ctConfig :
  (forall b, valueOf (findStoryblokValue node "icon") = JsBool b ->
     toComponent node spaceId componentGroup schema ctConfig = Throw TypeError)
  /\ (forall e,
        (forall b, valueOf (findStoryblokValue node "icon") <> JsBool b) ->
        toSchema node schema ctConfig = Throw e ->
        toComponent node spaceId componentGroup schema ctConfig = Throw e).
Proof.
  unfold toComponent. split.
  - intros b ->. reflexivity.
  - intros e Hicon ->.
    destruct (valueOf (findStoryblokValue node "icon")) as [|b|icon]; try done.
    by destruct (Hicon b).
Qed.

(** X4.  The preview selector of a returned component: neither
    [preview_field] nor [preview_tmpl] without a [preview] value (or with
    the empty one); [preview_field], with the snake-cased value, when the
    value is the name of a declared field; [preview_tmpl], with the value
    as written, otherwise.  The two are never both set. *)
Theorem preview_selector node spaceId componentGroup schema ctConfig c :
  toComponent node spaceId componentGroup schema ctConfig = Ok c ->
  let value := valueOf (findStoryblokValue node "preview") in
  (truthy value = false ->
     get c "preview_field" = JsUndefined /\ get c "preview_tmpl" = JsUndefined)
  /\ (truthy value = true -> namesField node value ->
      get c "preview_field" = JsStr (snakeCase (toString value))
      /\ get c "preview_tmpl" = JsUndefined)
  /\ (truthy value = true -> ~ namesField node value ->
      get c "preview_field" = JsUndefined /\ get c "preview_tmpl" = Prim value).
Proof.
  intros (icon & fields & Hfields & ->)%toComponent_Ok value.
  assert (existsb (fun f => bool_decide (JsStr (field_name f) = value))
            (default [] (node_fields node)) = true <-> namesField node value) as Hnames.
  { rewrite existsb_exists. unfold namesField.
    split; intros (f & Hin & Heq); exists f.
    - apply bool_decide_eq_true in Heq. by rewrite list_elem_of_In.
    - rewrite <- list_elem_of_In. split; [done|]. by apply bool_decide_eq_true. }
  unfold previewField. fold value.
  destruct (truthy value); simpl.
  - destruct (existsb _ _) eqn:Hexists.
    + split; [discriminate|]. split; [by intros _ _|].
      intros _ Hno. destruct Hno. by apply Hnames.
    + split; [discriminate|]. split; [|by intros _ _].
      intros _ Hyes%Hnames. discriminate.
  - split; [by intros _|]. split; discriminate.
Qed.

(** *** Members of the groups *)

Lemma getUniqueDirectiveProps_spec node directiveProp fields :
  node_fields node = Some fields ->
  exists names,
    getUniqueDirectiveProps node directiveProp = Some names
    /\ NoDup names
    /\ forall name,
        name ∈ names
        <-> name <> JsUndefined
            /\ exists field, field ∈ fields /\ groupOf directiveProp field = name.
Proof.
  intros Hfields. unfold getUniqueDirectiveProps. rewrite Hfields. simpl.
  eexists. split; [reflexivity|]. split.
  - apply NoDup_ListNoDup, List.NoDup_filter, NoDup_ListNoDup, NoDup_uniqueFrom.
  - intros name. rewrite elem_of_List_filter. unfold uniqueBy.
    rewrite elem_of_uniqueFrom, list_elem_of_fmap. unfold groupOf. split.
    + intros [[(field & -> & Hin) _] Hvalue]. split; [|by eauto].
      intros Hundef. by rewrite Hundef in Hvalue.
    + intros [Hdef (field & Hin & <-)]. split.
      * split; [by exists field | apply not_elem_of_nil].
      * by destruct (valueOf _).
Qed.

Lemma memberKeys_unfold node directiveProp name :
  memberKeys node directiveProp name
  = map field_name
      (List.filter (fun field => bool_decide (groupOf directiveProp field = name))
         (default [] (node_fields node)))
    ++ (if String.eqb directiveProp "tab" then
          uniqueBy id
            (map sectionKey
               (map (groupOf "section")
                  (List.filter
                     (fun field =>
                        bool_decide (groupOf "tab" field = name)
                        && bool_decide (is_Some (findStoryblokFieldValue field "section")))
                     (default [] (node_fields node)))))
        else []).
Proof.
  unfold memberKeys.
  change (get (toFieldGroupComponentField node directiveProp name) "keys")
    with (strings
            (default []
               ((fun fields =>
                   map field_name
                     (List.filter
                        (fun field => bool_decide (groupOf directiveProp field = name))
                        fields)) <$> node_fields node)
             ++ (if String.eqb directiveProp "tab" then
                   uniqueBy id
                     (map sectionKey
                        (map (groupOf "section")
                           (List.filter
                              (fun field =>
                                 bool_decide (groupOf "tab" field = name)
                                 && bool_decide
                                      (is_Some (findStoryblokFieldValue field "section")))
                              (default [] (node_fields node)))))
                 else []))).
  rewrite stringsOf_strings. by destruct (node_fields node).
Qed.

Lemma memberKeys_section node name :
  memberKeys node "section" name
  = map field_name
      (List.filter (fun field => bool_decide (groupOf "section" field = name))
         (default [] (node_fields node))).
Proof. rewrite memberKeys_unfold. apply app_nil_r. Qed.

(** X13.  No section group is empty, and the member keys of the section
    groups together are the names of the declared fields that have a
    [section] value, each name once for each such field: every such field
    is in the group of its value and in no other. *)
Theorem section_groups_partition node fields names :
  node_fields node = Some fields ->
  getUniqueDirectiveProps node "section" = Some names ->
  (forall name, name ∈ names -> memberKeys node "section" name <> [])
  /\ concat (map (memberKeys node "section") names)
     ≡ₚ map field_name
          (List.filter (fun field => isValue (groupOf "section" field)) fields).
Proof.
  intros Hfields Hnames.
  destruct (getUniqueDirectiveProps_spec node "section" fields Hfields)
    as (names' & Hnames' & Hnodup & Hin).
  rewrite Hnames in Hnames'. injection Hnames' as <-.
  split.
  - intros name (Hdef & field & Hfield & Hgroup)%Hin.
    rewrite memberKeys_section, Hfields. simpl. intros Hnil.
    apply (f_equal length) in Hnil. rewrite length_map in Hnil.
    apply length_zero_iff_nil in Hnil.
    assert (field ∈ List.filter
              (fun field => bool_decide (groupOf "section" field = name)) fields) as Hmem.
    { apply elem_of_List_filter. split; [done|]. by apply bool_decide_eq_true. }
    rewrite Hnil in Hmem. by apply elem_of_nil in Hmem.
  - erewrite map_ext; [|intros name; rewrite memberKeys_section, Hfields; reflexivity].
    simpl. rewrite <- (map_map (fun name => List.filter _ fields) (map field_name)).
    rewrite <- concat_map. apply fmap_Permutation.
    rewrite (concat_groups (groupOf "section") names fields Hnodup).
    erewrite List.filter_ext_in; [done|]. intros field Hfield%list_elem_of_In.
    apply eq_true_iff_eq. rewrite bool_decide_eq_true, Hin. split.
    + intros [Hdef _]. by destruct (groupOf "section" field).
    + intros Hvalue. split; [|by eauto]. intros Hundef. by rewrite Hundef in Hvalue.
Qed.

(** *** Entries of the ordinary fields *)









(** X10.  The [position] attributes of the entries [toSchema] writes are
    increasing natural numbers below the number of declared fields plus
    the numbers of section and tab groups; no two entries share a
    position. *)
Theorem positions_distinct node schema ctConfig fields :
  toSchema node schema ctConfig = Ok fields ->
  exists entries places,
    fields = fromEntries (entries ++ sectionFields node ++ tabFields node)
    /\ positions (entries ++ sectionFields node ++ tabFields node)
       = map positionOf places
    /\ sublist places
         (seq 0 (fieldsLength node + length (sectionFields node)
                 + length (tabFields node)))
    /\ NoDup (positions (entries ++ sectionFields node ++ tabFields node)).
Proof.
  intros (entries & Hentries & ->)%toSchema_Ok.
  exists entries. eexists. split; [done|].
  split; [by apply (schema_positions node schema ctConfig)|].
  assert (sublist
            (seq 0 (length (storyblokFields node))
             ++ seq (fieldsLength node) (length (sectionFields node))
             ++ seq (length (sectionFields node) + fieldsLength node)
                  (length (tabFields node)))
            (seq 0 (fieldsLength node + length (sectionFields node)
                    + length (tabFields node)))) as Hsub.
  { assert (length (storyblokFields node) <= fieldsLength node) as Hle.
    { unfold storyblokFields, fieldsLength.
      destruct (node_fields node); simpl; [apply filter_length_le|done]. }
    replace (fieldsLength node)
      with (length (storyblokFields node)
            + (fieldsLength node - length (storyblokFields node))) at 3 by lia.
    rewrite !seq_app. simpl. rewrite <- !app_assoc.
    apply sublist_app; [done|]. apply sublist_inserts_l.
    replace (length (storyblokFields node)
             + (fieldsLength node - length (storyblokFields node)))
      with (fieldsLength node) by lia.
    apply sublist_app; [done|].
    by replace (fieldsLength node + length (sectionFields node))
      with (length (sectionFields node) + fieldsLength node) by lia. }
  split; [done|].
  rewrite (schema_positions node schema ctConfig entries Hentries).
  apply (NoDup_fmap_2 positionOf).
  eapply sublist_NoDup; [apply NoDup_seq | exact Hsub].
Qed.

(** *** Entries of the groups *)

Lemma sectionFields_keys node :
  keys (sectionFields node)
  = map sectionKey (default [] (getUniqueDirectiveProps node "section")).
Proof.
  unfold sectionFields. destruct (getUniqueDirectiveProps node "section"); [|done].
  simpl. by apply keys_imap.
Qed.

Lemma tabFields_keys node :
  keys (tabFields node) = map tabKey (default [] (getUniqueDirectiveProps node "tab")).
Proof.
  unfold tabFields. destruct (getUniqueDirectiveProps node "tab"); [|done].
  simpl. by apply keys_imap.
Qed.

(** X12.  [toSchema] writes one section entry for each distinct
    [section] value and one tab entry for each distinct [tab] value of the
    declared fields, keyed by [camelCase] of [section <value>] or
    [tab <value>]; a field that gives the argument no value adds no
    group. *)
Theorem group_entries_by_distinct_value node fields :
  node_fields node = Some fields ->
  exists sections tabs,
    keys (sectionFields node) = map sectionKey sections
    /\ keys (tabFields node) = map tabKey tabs
    /\ NoDup sections /\ NoDup tabs
    /\ (forall name,
          name ∈ sections
          <-> name <> JsUndefined
              /\ exists field, field ∈ fields /\ groupOf "section" field = name)
    /\ (forall name,
          name ∈ tabs
          <-> name <> JsUndefined
              /\ exists field, field ∈ fields /\ groupOf "tab" field = name).
Proof.
  intros Hfields.
  destruct (getUniqueDirectiveProps_spec node "section" fields Hfields)
    as (sections & Hsections & Hnodup & Hin).
  destruct (getUniqueDirectiveProps_spec node "tab" fields Hfields)
    as (tabs & Htabs & Hnodup' & Hin').
  exists sections, tabs.
  rewrite sectionFields_keys, tabFields_keys, Hsections, Htabs. simpl.
  do 4 (split; [done|]). split; [exact Hin | exact Hin'].
Qed.

(** X14.  The member keys of a tab group are the names of the declared
    fields with that [tab] value, in declaration order, followed by the
    distinct section keys of those of them that carry a [section]
    argument; each such key with a section value is also the key of a
    section entry of the mapping. *)
Theorem tab_group_section_keys node fields name :
  node_fields node = Some fields ->
  exists sections,
    memberKeys node "tab" name
    = map field_name
        (List.filter (fun field => bool_decide (groupOf "tab" field = name)) fields)
      ++ sections
    /\ NoDup sections
    /\ (forall key,
          key ∈ sections
          <-> exists field,
                field ∈ fields /\ groupOf "tab" field = name
                /\ is_Some (findStoryblokFieldValue field "section")
                /\ key = sectionKey (groupOf "section" field))
    /\ (forall field,
          field ∈ fields -> groupOf "tab" field = name ->
          groupOf "section" field <> JsUndefined ->
          sectionKey (groupOf "section" field) ∈ sections
          /\ sectionKey (groupOf "section" field) ∈ keys (sectionFields node)).
Proof.
  intros Hfields. rewrite memberKeys_unfold, Hfields. simpl.
  eexists. split; [reflexivity|]. split; [apply NoDup_uniqueFrom|].
  assert (forall key,
             key ∈ uniqueBy id
                     (map sectionKey
                        (map (groupOf "section")
                           (List.filter
                              (fun field =>
                                 bool_decide (groupOf "tab" field = name)
                                 && bool_decide
                                      (is_Some (findStoryblokFieldValue field "section")))
                              fields)))
             <-> exists field,
                   field ∈ fields /\ groupOf "tab" field = name
                   /\ is_Some (findStoryblokFieldValue field "section")
                   /\ key = sectionKey (groupOf "section" field)) as Hkeys.
  { intros key. unfold uniqueBy. rewrite elem_of_uniqueFrom, map_map, list_elem_of_fmap.
    split.
    - intros [(field & -> & [Hin Hp]%elem_of_List_filter) _].
      apply andb_true_iff in Hp as [Htab%bool_decide_eq_true Hsec%bool_decide_eq_true].
      by exists field.
    - intros (field & Hin & Htab & Hsec & ->). split; [|apply not_elem_of_nil].
      exists field. split; [done|]. apply elem_of_List_filter. split; [done|].
      apply andb_true_iff. by rewrite !bool_decide_eq_true. }
  split; [exact Hkeys|].
  intros field Hin Htab Hsection. split.
  - apply Hkeys. exists field. repeat split; try done.
    unfold groupOf in Hsection.
    destruct (findStoryblokFieldValue field "section"); [by eexists|done].
  - rewrite sectionFields_keys.
    destruct (getUniqueDirectiveProps_spec node "section" fields Hfields)
      as (sections & -> & _ & Hsections).
    simpl. apply list_elem_of_fmap_2. apply Hsections. split; [done|]. by exists field.
Qed.

(** *** Enums, rich text and links *)

(** X20.  On an enum type with a definition node both classifiers
    return one option for each declared enum value, in declaration order,
    whose [value] is the name of the enum value; the singular classifier
    returns nothing else, the list classifier (on an enum not named
    [StoryblokAsset]) adds [minimum] and [maximum]. *)
Theorem enum_options field type schema ctConfig name astNode :
  getType schema (typeName type) = Some (GraphQLEnumType name (Some astNode)) ->
  exists options,
    map optionValue options
    = map (fun value => Prim (JsStr (enum_value_name value))) (enum_values astNode)
    /\ toComponentField field type schema ctConfig
       = Ok [("type", Prim (JsStr "option")); ("options", TfList options)]
    /\ (name <> "StoryblokAsset" ->
        toArrayComponentField field type schema ctConfig
        = Ok [("type", Prim (JsStr "options"));
              ("options", TfList options);
              ("minimum",
                ifValue (valueOf (findStoryblokFieldValue field "min")) NumberOf);
              ("maximum",
                ifValue (valueOf (findStoryblokFieldValue field "max")) NumberOf)]).
Proof.
  intros Hnode. exists (map enumOption (enum_values astNode)). split.
  - rewrite map_map. by apply map_ext.
  - unfold toComponentField, toArrayComponentField. rewrite Hnode. split; [done|].
    intros Hname%String.eqb_neq. simpl. by rewrite Hname.
Qed.

(** X25.  In the [richtext] field of a [String] field, [toolbar] and
    [component_whitelist] list no member twice; [customize_toolbar] is
    [true] exactly when a [toolbar] argument is given, and
    [restrict_components] exactly when a [blokTypes] argument is
    given. *)
Theorem richtext_lists_distinct field type schema ctConfig spec :
  typeName type = "String" ->
  notEnumObjectUnion (getType schema "String") ->
  truthy (valueOf (findStoryblokFieldValue field "datasource")) = false ->
  valueOf (findStoryblokFieldValue field "ctType") <> JsStr "category" ->
  valueOf (findStoryblokFieldValue field "format") = JsStr "richtext" ->
  toComponentField field type schema ctConfig = Ok spec ->
  get spec "type" = JsStr "richtext"
  /\ NoDup (stringsOf (get spec "toolbar"))
  /\ NoDup (stringsOf (get spec "component_whitelist"))
  /\ (get spec "customize_toolbar" = JsBool true
      <-> is_Some (findStoryblokFieldValue field "toolbar"))
  /\ (get spec "restrict_components" = JsBool true
      <-> is_Some (findStoryblokFieldValue field "blokTypes")).
Proof.
  intros Htype Hshape Hdatasource HctType Hformat.
  apply (bool_decide_eq_false_2 _) in HctType.
  unfold toComponentField. rewrite Htype.
  destruct (getType schema "String") as [[]|]; try done;
    cbn [isObjectType String.eqb Ascii.eqb Bool.eqb orb andb];
    rewrite Hdatasource, HctType, Hformat;
    rewrite bool_decide_eq_true_2 by done;
    unfold listArgument, valuesMap, bind.
  all: destruct (findStoryblokFieldValue field "blokTypes") as [[]|]; try discriminate.
  all: destruct (findStoryblokFieldValue field "toolbar") as [[]|]; try discriminate.
  all: destruct (findStoryblokFieldValue field "linkFeatures") as [[]|]; try discriminate.
  all: intros [= <-]; cbn [get String.eqb Ascii.eqb Bool.eqb fmap option_fmap option_map].
  all: split; [reflexivity|].
  all: do 2 (split; [rewrite ?stringsOf_strings;
                     first [apply NoDup_uniqueFrom | apply NoDup_nil_2]|]).
  all: split; (split; [first [discriminate | by eauto]
                      | first [done | by intros [? [=]]]]).
Qed.

(** X21.  A [StoryblokLink] field becomes a [multilink] whose
    [link_scope] is the [folder] argument; [force_link_scope] is [true]
    exactly when the folder is there and not empty,
    [restrict_content_types] exactly when the component whitelist has a
    member, and each of the six flags is [true] or absent, never
    [false]. *)
Theorem multilink_flags field type schema ctConfig node spec :
  typeName type = "StoryblokLink" ->
  getType schema "StoryblokLink" = Some node ->
  (forall name astNode, node <> GraphQLEnumType name (Some astNode)) ->
  toComponentField field type schema ctConfig = Ok spec ->
  get spec "type" = JsStr "multilink"
  /\ get spec "link_scope" = Prim (valueOf (findStoryblokFieldValue field "folder"))
  /\ (get spec "force_link_scope" = JsBool true
      <-> truthy (valueOf (findStoryblokFieldValue field "folder")) = true)
  /\ (get spec "restrict_content_types" = JsBool true
      <-> stringsOf (get spec "component_whitelist") <> [])
  /\ Forall (fun flag => get spec flag = JsBool true \/ get spec flag = JsUndefined)
       linkFlags.
Proof.
  intros Htype Hnode Henum. unfold toComponentField. rewrite Htype, Hnode.
  assert (forall b, orUndefined b = JsBool true \/ orUndefined b = JsUndefined) as Hflag
    by (intros [|]; eauto).
  assert (forall l : option (list string),
             orUndefined (match l with Some (_ :: _) => true | _ => false end)
             = JsBool true
             <-> stringsOf (optStrings l) <> []) as Hrestrict.
  { intros [[|s l]|]; simpl; split; try done. }
  destruct node as [| | | |? [astNode|]|]; try (by destruct (Henum _ _ eq_refl));
    cbn [String.eqb Ascii.eqb Bool.eqb];
    unfold listArgument, valuesMap, bind;
    destruct (findStoryblokFieldValue field "linkFeatures") as [[]|];
    try discriminate;
    destruct (findStoryblokFieldValue field "blokTypes") as [[]|];
    try discriminate;
    intros [= <-].
  all: split; [reflexivity|].
  all: split; [reflexivity|].
  all: split; [cbn [get String.eqb Ascii.eqb Bool.eqb]; by destruct (truthy _)|].
  all: split; [first [exact (Hrestrict (Some _)) | exact (Hrestrict None)]|].
  all: unfold linkFlags.
  all: repeat (apply Forall_cons; split;
               [cbn beta; cbn [get String.eqb Ascii.eqb Bool.eqb];
                first [apply Hflag | by right | by left]|]).
  all: apply Forall_nil_2.
Qed.

End MapperBehaviour.

(** ** The mapper on the sample schemas *)

Example camel_section : camelCase "section Basics" = "sectionBasics".
Proof. reflexivity. Qed.

Example snake_pascal : snakeCase "HeroBanner" = "hero_banner".
Proof. reflexivity. Qed.

Example sentence_camel : sentenceCase "internalNote" = "Internal note".
Proof. reflexivity. Qed.

Example param_camel : paramCase "pasteAction" = "paste-action".
Proof. reflexivity. Qed.

(** C1. On the singular field [page: Page], where every member of the
    union [Page] is tagged [type: universal], the singular classifier
    returns the [bloks] variant, while the list classifier returns the
    content reference for [pages: [Page]] over the same union. *)
Lemma singular_universal_union_is_bloks :
  toComponentField pageField (NamedType "Page") sampleSchema None
  = Ok [("type", Prim (JsStr "bloks"));
        ("component_whitelist", strings ["landing"; "article"]);
        ("restrict_components", Prim (JsBool true));
        ("minimum", JsNum 0);
        ("maximum", JsNum 1)]
  /\ toArrayComponentField pagesField (NamedType "Page") sampleSchema None
     = Ok [("type", Prim (JsStr "options"));
           ("source", Prim (JsStr "internal_stories"));
           ("filter_content_type", strings ["landing"; "article"]);
           ("use_uuid", Prim (JsBool true));
           ("folder_slug", Prim JsUndefined)].
Proof. split; vm_compute; reflexivity. Qed.

(** A singular field over a union whose members are tagged
    [type: contentType] is a content reference. *)
Example singular_content_type_union_is_option :
  toComponentField (fieldOf "author" (NamedType "Person") [storyblokField []])
    (NamedType "Person") sampleSchema None
  = Ok [("type", Prim (JsStr "option"));
        ("source", Prim (JsStr "internal_stories"));
        ("filter_content_type", strings ["author"]);
        ("folder_slug", Prim JsUndefined);
        ("use_uuid", Prim (JsBool true))].
Proof. vm_compute. reflexivity. Qed.

(** C2. On the type [Teaser], whose first field lacks the
    [storyblokField] directive, the mapping holds the field [summary] at
    position 0 and the section group at position 2: position 1 is
    skipped. *)
Lemma teaser_positions_skip_one :
  exists fields,
    toSchema Teaser sampleSchema None = Ok fields
    /\ keys fields = ["summary"; "sectionSeo"]
    /\ positions fields = [JsNum 0; JsNum 2].
Proof. eexists. split; [vm_compute; reflexivity|]. split; reflexivity. Qed.

(** On [Profile], where every declared field carries the directive, the
    positions count up from 0. *)
Example profile_positions :
  exists fields,
    toSchema Profile sampleSchema None = Ok fields
    /\ keys fields = ["title"; "body"; "sectionBasics"; "tabInfo"]
    /\ positions fields = [JsNum 0; JsNum 1; JsNum 2; JsNum 3].
Proof. eexists. split; [vm_compute; reflexivity|]. split; reflexivity. Qed.

(** C3, as stated, fails on [Profile]: the member keys of the "Info" tab
    group hold [body], the member of the "Basics" section, besides [title]
    and the key of the section group. *)
Lemma profile_tab_lists_section_member :
  get (toFieldGroupComponentField Profile "tab" (JsStr "Info")) "keys"
  = strings ["title"; "body"; "sectionBasics"].
Proof. vm_compute. reflexivity. Qed.

(** The amended C3 on [Profile]. *)
Lemma tab_keys_with_section_witness :
  get (toFieldGroupComponentField Profile "tab" (JsStr "Info")) "keys"
  = strings ["title"; "body"; camelCase "section Basics"].
Proof.
  apply (tab_keys_with_section Profile
           (fieldOf "title" (NamedType "String")
              [storyblokField [("tab", StringValue "Info")]])
           (fieldOf "body" (NamedType "String")
              [storyblokField [("tab", StringValue "Info");
                               ("section", StringValue "Basics")]])).
  - reflexivity.
  - reflexivity.
  - reflexivity.
  - left. split; reflexivity.
Defined.

(** C4, as stated, fails on [tags: [String]] with a [datasource]
    argument: the list classifier returns the [options] variant of the
    internal datasource and throws nothing. *)
Lemma string_list_with_datasource_is_options :
  toArrayComponentField tagsField (NamedType "String") sampleSchema None
  = Ok [("type", Prim (JsStr "options"));
        ("datasource_slug", Prim (JsStr "colors"));
        ("source", Prim (JsStr "internal"));
        ("use_uuid", Prim (JsBool true))].
Proof. vm_compute. reflexivity. Qed.

(** The amended C4 on [counts: [Int]] and on [tags: [String]]. *)
Lemma array_of_other_type_witness :
  toArrayComponentField countsField (NamedType "Int") sampleSchema None
  = Throw (Error "Unsupported array type Int")
  /\ toArrayComponentField tagsField (NamedType "String") sampleSchema None
     = Ok [("type", Prim (JsStr "options"));
           ("datasource_slug", Prim (JsStr "colors"));
           ("source", Prim (JsStr "internal"));
           ("use_uuid", Prim (JsBool true))].
Proof.
  split.
  - apply (array_of_other_type countsField (NamedType "Int") sampleSchema None);
      [reflexivity | reflexivity | discriminate | discriminate | discriminate].
  - apply (array_of_other_type tagsField (NamedType "String") sampleSchema None);
      [reflexivity | reflexivity | discriminate | discriminate | reflexivity].
Defined.

(** C5, as stated, fails on [sku: CtTypeId]: the message of the error
    names the type [CtTypeId] and does not hold the name of the field. *)
Lemma ct_type_id_error_names_the_type :
  toComponentField skuField (NamedType "CtTypeId") sampleSchema None
  = Throw (Error "Commercetools config is required for type CtTypeId")
  /\ includes "Commercetools config is required for type CtTypeId"
       (field_name skuField) = false.
Proof. split; vm_compute; reflexivity. Qed.

(** The amended C5 on [sku: CtTypeId], read as a singular and as a list
    field. *)
Lemma ct_type_id_without_config_witness :
  toComponentField skuField (NamedType "CtTypeId") sampleSchema None
  = Throw (Error "Commercetools config is required for type CtTypeId")
  /\ toArrayComponentField skuField (NamedType "CtTypeId") sampleSchema None
     = Throw (Error "Commercetools config is required for type CtTypeId").
Proof.
  apply (ct_type_id_without_config skuField (NamedType "CtTypeId") sampleSchema);
    [reflexivity | reflexivity | reflexivity].
Defined.

(** C6, as stated, fails on [body] without a [toolbar] argument, where
    the [richtext] spec has no toolbar list, and on [body] with
    [toolbar: [blok, bold]], where the toolbar list ends with [bold]. *)
Lemma richtext_toolbar_absent_or_blok_first :
  (exists spec,
      toComponentField bodyField (NamedType "String") sampleSchema None = Ok spec
      /\ get spec "type" = JsStr "richtext"
      /\ get spec "toolbar" = JsUndefined)
  /\ (exists spec,
        toComponentField bodyBlokFirstField (NamedType "String") sampleSchema None
        = Ok spec
        /\ get spec "type" = JsStr "richtext"
        /\ get spec "toolbar" = strings ["blok"; "bold"]).
Proof.
  split; eexists; (split; [vm_compute; reflexivity|]); split; reflexivity.
Qed.

(** The amended C6 on [body] with [toolbar: [bold, pasteAction]], where
    [blok] is added, and with [toolbar: [bold, blok]], where it is
    configured as the last entry. *)
Lemma richtext_toolbar_blok_witness :
  (exists spec,
      toComponentField bodyToolbarField (NamedType "String") sampleSchema None = Ok spec
      /\ get spec "restrict_components" = JsBool true
      /\ get spec "toolbar" = strings ["bold"; "paste-action"; "blok"])
  /\ (exists spec,
        toComponentField bodyBlokLastField (NamedType "String") sampleSchema None
        = Ok spec
        /\ get spec "restrict_components" = JsBool true
        /\ get spec "toolbar" = strings ["bold"; "blok"]).
Proof.
  split.
  - destruct (richtext_toolbar_blok bodyToolbarField (NamedType "String") sampleSchema
                None [StringValue "HeroBanner"] eq_refl eq_refl eq_refl
                ltac:(discriminate) eq_refl eq_refl
                (ex_intro _ "HeroBanner" (list_elem_of_here _ _)) I)
      as (spec & names & Hok & _ & Hrestrict & Htoolbar & Hnames & _).
    exists spec. split; [exact Hok|]. split; [exact Hrestrict|].
    rewrite Htoolbar, Hnames. reflexivity.
  - destruct (richtext_toolbar_blok bodyBlokLastField (NamedType "String") sampleSchema
                None [StringValue "HeroBanner"] eq_refl eq_refl eq_refl
                ltac:(discriminate) eq_refl eq_refl
                (ex_intro _ "HeroBanner" (list_elem_of_here _ _)) I)
      as (spec & names & Hok & _ & Hrestrict & Htoolbar & Hnames & _).
    exists spec. split; [exact Hok|]. split; [exact Hrestrict|].
    rewrite Htoolbar, Hnames. reflexivity.
Defined.


(** C10 on [Teaser]: the mapping has an entry for [summary], which
    carries the directive, and none for [internalNote], which does not. *)
Lemma normal_fields_iff_storyblokField_witness :
  exists fields,
    toSchema Teaser sampleSchema None = Ok fields
    /\ "summary" ∈ keys fields
    /\ "internalNote" ∉ keys fields.
Proof.
  destruct (normal_fields_iff_storyblokField Teaser sampleSchema None)
    as (Hreturns & _ & Hentries).
  destruct Hreturns as [_ [fields Hfields]].
  { apply Forall_cons. split; [by eexists|]. apply Forall_nil_2. }
  exists fields. split; [exact Hfields|].
  destruct (Hentries fields Hfields) as (entries & _ & _ & Hkeys).
  split.
  - apply Hkeys. left. apply list_elem_of_here.
  - intros Hin%Hkeys. vm_compute in Hin.
    destruct Hin as [Hin|[Hin|Hin]];
      repeat (apply elem_of_cons in Hin as [Hin|Hin]; [discriminate Hin|]);
      by apply elem_of_nil in Hin.
Defined.

(** The ordinary entries of [Teaser]: one, for the field that carries the
    directive; [internalNote] is left out. *)
Example teaser_normal_fields :
  exists entries,
    normalFields Teaser sampleSchema None = Ok entries
    /\ map fst entries = ["summary"].
Proof. eexists. split; [vm_compute; reflexivity|]. reflexivity. Qed.

(** *** Further runs *)

Ltac not_listed :=
  let Hin := fresh in
  intros Hin;
  repeat (apply elem_of_cons in Hin as [Hin|Hin]; [discriminate Hin|]);
  by apply elem_of_nil in Hin.

Lemma toComponent_attributes_witness :
  exists component fields,
    toComponent Post 7 None sampleSchema None = Ok component
    /\ toSchema Post sampleSchema None = Ok fields
    /\ get component "schema" = TfMap fields
    /\ get component "name" = JsStr "post"
    /\ get component "space_id" = JsNum 7
    /\ get component "component_group_uuid" = JsUndefined
    /\ keys component = componentAttributes ++ ["preview_field"].
Proof.
  eexists.
  destruct (toComponent_attributes Post 7 None sampleSchema None _ eq_refl)
    as (fields & Hfields & Hschema & Hname & Hspace & Hgroup & Hkeys).
  exists fields. split; [reflexivity|]. by repeat split.
Defined.

Lemma root_or_nestable_witness :
  exists component,
    toComponent Post 7 None sampleSchema None = Ok component
    /\ get component "is_root" = JsBool true
    /\ get component "is_nestable" = JsBool false.
Proof.
  eexists. split; [reflexivity|].
  destruct (root_or_nestable Post 7 None sampleSchema None _ eq_refl)
    as (root & nestable & Hroot & Hnestable & Hcontent & Htype & _).
  rewrite Hroot, Hnestable.
  assert (nestable = false) as -> by by apply Hcontent.
  assert (root = true) as -> by (apply Htype; by left).
  by split.
Defined.

Lemma toComponent_throws_witness :
  toComponent Flagged 7 None sampleSchema None = Throw TypeError
  /\ toComponent Invoice 7 None sampleSchema None
     = Throw (Error "Unsupported type Money").
Proof.
  split.
  - by apply (toComponent_throws Flagged 7 None sampleSchema None) with (b := true).
  - by apply (toComponent_throws Invoice 7 None sampleSchema None).
Defined.

Lemma toIconValue_clean_witness :
  includes (toIconValue "arrow_up_right") "_" = false
  /\ toIconValue "block-doc" = "block-doc".
Proof.
  split.
  - apply (toIconValue_clean "arrow_up_right").
  - by apply (toIconValue_clean "block-doc").
Defined.

Lemma preview_selector_witness :
  exists component,
    toComponent Post 7 None sampleSchema None = Ok component
    /\ get component "preview_field" = JsStr "title"
    /\ get component "preview_tmpl" = JsUndefined.
Proof.
  eexists. split; [reflexivity|].
  destruct (preview_selector Post 7 None sampleSchema None _ eq_refl)
    as (_ & Hfield & _).
  apply Hfield; [reflexivity|]. exists titleField. split; [apply list_elem_of_here|done].
Defined.

Lemma toSchema_first_error_witness :
  toSchema Invoice sampleSchema None = Throw (Error "Unsupported type Money").
Proof.
  apply (toSchema_first_error Invoice sampleSchema None [titleField] priceField [skuField]).
  - reflexivity.
  - apply Forall_cons. split; [by eexists|]. apply Forall_nil_2.
  - reflexivity.
Defined.



Lemma required_in_mapping_witness :
  exists fields,
    toSchema Teaser sampleSchema None = Ok fields
    /\ requiredAsDeclared
         (fieldOf "summary" (NonNullType (NamedType "String"))
            [storyblokField [("section", StringValue "Seo")]])
         ("summary", get fields "summary").
Proof.
  eexists. split; [reflexivity|].
  apply (required_in_mapping Teaser sampleSchema None _
           (fieldOf "summary" (NonNullType (NamedType "String"))
              [storyblokField [("section", StringValue "Seo")]])).
  - reflexivity.
  - vm_compute. repeat (apply NoDup_cons; split; [not_listed|]). apply NoDup_nil_2.
  - apply list_elem_of_here.
Defined.

Lemma positions_distinct_witness :
  exists fields entries places,
    toSchema Teaser sampleSchema None = Ok fields
    /\ fields = fromEntries (entries ++ sectionFields Teaser ++ tabFields Teaser)
    /\ positions (entries ++ sectionFields Teaser ++ tabFields Teaser)
       = map positionOf places
    /\ sublist places (seq 0 3)
    /\ NoDup (positions (entries ++ sectionFields Teaser ++ tabFields Teaser)).
Proof.
  eexists.
  destruct (positions_distinct Teaser sampleSchema None _ eq_refl)
    as (entries & places & Hfields & Hpositions & Hsub & Hdistinct).
  exists entries, places. split; [reflexivity|]. by repeat split.
Defined.

Lemma positions_contiguous_witness :
  exists entries,
    normalFields Profile sampleSchema None = Ok entries
    /\ positions (entries ++ sectionFields Profile ++ tabFields Profile)
       = map positionOf [0; 1; 2; 3]%nat.
Proof.
  eexists. split; [reflexivity|].
  by rewrite (positions_contiguous Profile sampleSchema None _ eq_refl eq_refl).
Defined.

Lemma group_entries_by_distinct_value_witness :
  exists sections tabs,
    keys (sectionFields Profile) = map sectionKey sections
    /\ keys (tabFields Profile) = map tabKey tabs
    /\ NoDup sections /\ NoDup tabs
    /\ JsStr "Basics" ∈ sections
    /\ JsStr "Info" ∈ tabs.
Proof.
  destruct (group_entries_by_distinct_value Profile _ eq_refl)
    as (sections & tabs & Hsections & Htabs & Hs & Ht & Hin & Hin').
  exists sections, tabs. do 4 (split; [done|]). split.
  - apply Hin. split; [done|]. eexists. split.
    + apply list_elem_of_further, list_elem_of_here.
    + reflexivity.
  - apply Hin'. split; [done|]. eexists. split.
    + apply list_elem_of_here.
    + reflexivity.
Defined.

Lemma section_groups_partition_witness :
  concat (map (memberKeys Profile "section") [JsStr "Basics"]) ≡ₚ ["body"].
Proof.
  by destruct (section_groups_partition Profile _ [JsStr "Basics"] eq_refl eq_refl)
    as [_ Hpartition].
Defined.

Lemma tab_group_section_keys_witness :
  exists sections,
    memberKeys Profile "tab" (JsStr "Info") = ["title"; "body"] ++ sections
    /\ NoDup sections
    /\ "sectionBasics" ∈ sections
    /\ "sectionBasics" ∈ keys (sectionFields Profile).
Proof.
  destruct (tab_group_section_keys Profile _ (JsStr "Info") eq_refl)
    as (sections & Hkeys & Hdistinct & _ & Hmember).
  exists sections. split; [exact Hkeys|]. split; [exact Hdistinct|].
  apply (Hmember (fieldOf "body" (NamedType "String")
                    [storyblokField [("tab", StringValue "Info");
                                     ("section", StringValue "Basics")]])).
  - apply list_elem_of_further, list_elem_of_here.
  - reflexivity.
  - done.
Defined.

Lemma toArrayComponentField_kind_witness :
  exists o,
    toArrayComponentField tagsField (NamedType "String") sampleSchema None = Ok o
    /\ kindIn arrayKinds o = true.
Proof.
  eexists. split; [reflexivity|].
  by apply (toArrayComponentField_kind tagsField (NamedType "String") sampleSchema None).
Defined.

Lemma array_object_or_union_witness :
  toArrayComponentField pagesField (NamedType "Page") sampleSchema None
  = Ok [("type", Prim (JsStr "options"));
        ("source", Prim (JsStr "internal_stories"));
        ("filter_content_type", strings ["landing"; "article"]);
        ("use_uuid", Prim (JsBool true));
        ("folder_slug", Prim JsUndefined)]
  /\ toArrayComponentField metasField (NamedType "__Type") introspectionSchema None
     = Throw TypeError.
Proof.
  split.
  - by rewrite (array_object_or_union pagesField (NamedType "Page") sampleSchema None
                  _ eq_refl eq_refl).
  - by rewrite (array_object_or_union metasField (NamedType "__Type")
                  introspectionSchema None _ eq_refl eq_refl).
Defined.

Lemma toComponentField_kind_witness :
  exists o,
    toComponentField colorField (NamedType "Color") linkSchema None = Ok o
    /\ kindIn singularKinds o = true.
Proof.
  eexists. split; [reflexivity|].
  by apply (toComponentField_kind colorField (NamedType "Color") linkSchema None).
Defined.

Lemma singular_object_or_union_witness :
  toComponentField pageField (NamedType "Page") sampleSchema None
  = Ok [("type", Prim (JsStr "bloks"));
        ("component_whitelist", strings ["landing"; "article"]);
        ("restrict_components", Prim (JsBool true));
        ("minimum", JsNum 0);
        ("maximum", JsNum 1)]
  /\ toComponentField metaField (NamedType "__Type") introspectionSchema None
     = Throw TypeError.
Proof.
  split.
  - rewrite (singular_object_or_union pageField (NamedType "Page") sampleSchema None
               _ eq_refl); [reflexivity|exact I|not_listed].
  - rewrite (singular_object_or_union metaField (NamedType "__Type")
               introspectionSchema None _ eq_refl); [reflexivity|exact I|not_listed].
Defined.

Lemma singular_unsupported_type_witness :
  toComponentField priceField (NamedType "Money") sampleSchema None
  = Throw (Error "Unsupported type Money").
Proof.
  apply (singular_unsupported_type priceField (NamedType "Money") sampleSchema None).
  - by left.
  - not_listed.
Defined.

Lemma enum_options_witness :
  exists options,
    map optionValue options = [Prim (JsStr "RED"); Prim (JsStr "BLUE")]
    /\ toComponentField colorField (NamedType "Color") linkSchema None
       = Ok [("type", Prim (JsStr "option")); ("options", TfList options)].
Proof.
  destruct (enum_options colorField (NamedType "Color") linkSchema None _ _ eq_refl)
    as (options & Hvalues & Hsingular & _).
  by exists options.
Defined.

Lemma multilink_flags_witness :
  exists spec,
    toComponentField linkField (NamedType "StoryblokLink") linkSchema None = Ok spec
    /\ get spec "type" = JsStr "multilink"
    /\ get spec "link_scope" = JsStr "pages/"
    /\ get spec "force_link_scope" = JsBool true
    /\ Forall (fun flag => get spec flag = JsBool true \/ get spec flag = JsUndefined)
         linkFlags.
Proof.
  eexists. split; [reflexivity|].
  destruct (multilink_flags linkField (NamedType "StoryblokLink") linkSchema None
              _ _ eq_refl eq_refl ltac:(done) eq_refl)
    as (Htype & Hscope & Hforce & _ & Hflags).
  split; [exact Htype|]. split; [exact Hscope|]. split; [by apply Hforce|exact Hflags].
Defined.

Lemma string_datasource_overrides_witness :
  toComponentField swatchField (NamedType "String") sampleSchema None
  = Ok [("type", Prim (JsStr "option"));
        ("datasource_slug", Prim (JsStr "colors"));
        ("source", Prim (JsStr "internal"));
        ("use_uuid", Prim (JsBool true))].
Proof.
  by apply (string_datasource_overrides swatchField (NamedType "String") sampleSchema None).
Defined.

Lemma string_category_witness :
  toComponentField categoryField (NamedType "String") sampleSchema None
  = Throw (Error "Commercetools config is required for category").
Proof.
  by apply (string_category categoryField (NamedType "String") sampleSchema None).
Defined.

Lemma string_plain_formats_witness :
  toComponentField notesField (NamedType "String") sampleSchema None
  = Ok [("type", Prim (JsStr "textarea"));
        ("rtl", Prim JsUndefined);
        ("max_length", NumberOf (JsStr "200"))].
Proof.
  by rewrite (string_plain_formats notesField (NamedType "String") sampleSchema None).
Defined.

Lemma richtext_lists_distinct_witness :
  exists spec,
    toComponentField bodyToolbarField (NamedType "String") sampleSchema None = Ok spec
    /\ get spec "type" = JsStr "richtext"
    /\ NoDup (stringsOf (get spec "toolbar"))
    /\ NoDup (stringsOf (get spec "component_whitelist"))
    /\ get spec "customize_toolbar" = JsBool true
    /\ get spec "restrict_components" = JsBool true.
Proof.
  eexists. split; [reflexivity|].
  destruct (richtext_lists_distinct bodyToolbarField (NamedType "String") sampleSchema
              None _ eq_refl ltac:(done) eq_refl ltac:(done) eq_refl eq_refl)
    as (Htype & Htoolbar & Hwhitelist & Hcustomize & Hrestrict).
  do 3 (split; [done|]). split; [by apply Hcustomize|by apply Hrestrict].
Defined.
